(** * Voice biometric engine: capture session, enrollment and verification

    A shallow embedding of the voice-print part of the dashboard:

    - [useAudioCapture] (the capture hook: [start], the [onaudioprocess]
      callback, [finish], [stop]), with calls taken one at a time and with
      calls of [start] that overlap,
    - the [POST] handlers of [api/voice/register] and [api/voice/verify].

    JavaScript numbers are IEEE 754 binary64 values, modelled by the
    primitive type [float].  A [Float32Array] is a list of such values: the
    hook only copies samples from one typed array to another, so no value
    is ever rounded.  The tables of the persistence layer are a [gset] and
    a [gmap]. *)

From Stdlib Require Import PrimFloat.
From Stdlib Require SpecFloat FloatOps FloatAxioms.
From stdpp Require Import gmap strings list fin_maps.

Set Warnings "-register-all,-inexact-float,-clear-no-such-hyp".

(** ** Typed arrays *)

Module Float32Array.

(** [new Float32Array(n)]: [n] samples, all [+0]. *)
Definition new (n : nat) : list float := replicate n PrimFloat.zero.

(** [new Float32Array(source)]: an independent copy of [source]. *)
Definition copy (source : list float) : list float := source.

(** [target.set(source, offset)] overwrites
    [target[offset .. offset + source.length)] with [source]; it throws a
    [RangeError] ([None]) when the source does not fit. *)
Definition set (target source : list float) (offset : nat) : option (list float) :=
  if decide (offset + length source ≤ length target)
  then Some (list_inserts offset source target)
  else None.

End Float32Array.

(** ** Assembly of the recorded frames ([finish], lines 98-106) *)

(** [frames.reduce((acc, frame) => acc + frame.length, 0)] *)
Definition totalLength (frames : list (list float)) : nat :=
  foldl (λ acc frame, acc + length frame) 0 frames.

(** One iteration of [frames.forEach((frame) => { result.set(frame, offset);
    offset += frame.length; })], on the pair [(result, offset)]. *)
Definition place (acc : option (list float * nat)) (frame : list float)
  : option (list float * nat) :=
  '(result, offset) ← acc;
  result' ← Float32Array.set result frame offset;
  Some (result', offset + length frame).

Definition assemble (frames : list (list float)) : option (list float) :=
  let result := Float32Array.new (totalLength frames) in
  fst <$> foldl place (Some (result, 0)) frames.

(** ** The capture hook [useAudioCapture] *)

(** How an [async] function ends: its promise resolves with a value or
    rejects. *)
Inductive Outcome (A : Type) : Type :=
  | Resolved (value : A)
  | Rejected.
Arguments Resolved {A} value.
Arguments Rejected {A}.

Module Capture.

(** What [computeVoicePrint] returns: the vector and the feature summary the
    payload copies. *)
Record VoicePrint (Features : Type) : Type := {
  print_vector : list float;
  print_features : Features }.
Arguments print_vector {Features} _.
Arguments print_features {Features} _.

(** [interface VoiceCaptureResult] *)
Record VoiceCaptureResult (Features : Type) : Type := {
  vector : list float;
  features : Features;
  raw : list float;
  sampleRate : float }.
Arguments vector {Features} _.
Arguments features {Features} _.
Arguments raw {Features} _.
Arguments sampleRate {Features} _.

(** An [AudioContext] object: its identity and its [sampleRate] property. *)
Record AudioContext : Type := {
  context : nat;
  rate : float }.

(** The part of the browser the hook acts on; objects are named by the
    number they were created under.
    - [liveStreams]: media streams whose tracks have not been stopped (the
      microphone is held as long as one is live),
    - [openContexts]: audio contexts that have not been closed,
    - [connected]: script processors still connected to the audio graph
      (only those receive [audioprocess] events),
    - [fresh]: the next unused object number. *)
Record Browser : Type := {
  liveStreams : gset nat;
  openContexts : gset nat;
  connected : gset nat;
  fresh : nat }.

(** [processor?.disconnect()] *)
Definition disconnect (processor : option nat) (b : Browser) : Browser :=
  match processor with
  | Some p =>
      {| liveStreams := liveStreams b; openContexts := openContexts b;
         connected := connected b ∖ {[p]}; fresh := fresh b |}
  | None => b
  end.

(** [stream?.getTracks().forEach((track) => track.stop())] *)
Definition stopTracks (stream : option nat) (b : Browser) : Browser :=
  match stream with
  | Some m =>
      {| liveStreams := liveStreams b ∖ {[m]}; openContexts := openContexts b;
         connected := connected b; fresh := fresh b |}
  | None => b
  end.

(** [if (audioContext) { audioContext.close(); }] *)
Definition close (audioContext : option AudioContext) (b : Browser) : Browser :=
  match audioContext with
  | Some c =>
      {| liveStreams := liveStreams b; openContexts := openContexts b ∖ {[context c]};
         connected := connected b; fresh := fresh b |}
  | None => b
  end.

Section Hook.

Context {Features : Type}.

(** [computeVoicePrint] is imported from [@/lib/audio/voiceprint]; the hook
    only calls it.  It is taken as a function of the samples that leaves its
    argument as it is; [None] stands for a call that throws. *)
Variable computeVoicePrint : list float → option (VoicePrint Features).

(** The three refs, the [isRecording] and [lastResult] state cells, the
    frame buffer, and the browser objects.  [isRecording] is the value the
    callbacks of the current render close over. *)
Record State : Type := {
  mediaStreamRef : option nat;
  processorRef : option nat;
  audioContextRef : option AudioContext;
  isRecording : bool;
  framesRef : list (list float);
  lastResult : option (VoiceCaptureResult Features);
  browser : Browser }.

Definition initial : State :=
  {| mediaStreamRef := None; processorRef := None; audioContextRef := None;
     isRecording := false; framesRef := []; lastResult := None;
     browser := {| liveStreams := ∅; openContexts := ∅; connected := ∅; fresh := 0 |} |}.

(** [stop] (lines 41-55). *)
Definition stop (s : State) : State :=
  {| processorRef := None;
     audioContextRef := None;
     mediaStreamRef := None;
     isRecording := false;
     framesRef := framesRef s;
     lastResult := lastResult s;
     browser := close (audioContextRef s)
                  (stopTracks (mediaStreamRef s)
                     (disconnect (processorRef s) (browser s))) |}.

(** [start] (lines 57-80), for a call whose [getUserMedia] request settles
    before anything else happens.  [device] is the answer of
    [navigator.mediaDevices.getUserMedia]: [None] when the promise rejects,
    otherwise the sample rate of the audio context created next.  Calls
    whose request is still pending when the next thing happens are taken up
    below, with [resume]. *)
Definition start (device : option float) (s : State) : State * Outcome unit :=
  if isRecording s then (s, Resolved ())
  else
    match device with
    | None => (s, Rejected)
    | Some sampleRate =>
        let b := browser s in
        let stream := fresh b in
        let audioContext := {| context := S (fresh b); rate := sampleRate |} in
        let processor := S (S (fresh b)) in
        ({| audioContextRef := Some audioContext;
            mediaStreamRef := Some stream;
            framesRef := [];
            processorRef := Some processor;
            isRecording := true;
            lastResult := lastResult s;
            browser := {| liveStreams := {[stream]} ∪ liveStreams b;
                          openContexts := {[context audioContext]} ∪ openContexts b;
                          connected := {[processor]} ∪ connected b;
                          fresh := S (S (S (fresh b))) |} |},
         Resolved ())
    end.

(** The statements of [start] after the [await] (lines 63-79).  They run
    when [getUserMedia] resolves, on the hook as it is by then: the guard of
    line 58 was passed when [start] was called and is not looked at again. *)
Definition resume (sampleRate : float) (s : State) : State :=
  let b := browser s in
  let stream := fresh b in
  let audioContext := {| context := S (fresh b); rate := sampleRate |} in
  let processor := S (S (fresh b)) in
  {| audioContextRef := Some audioContext;
     mediaStreamRef := Some stream;
     framesRef := [];
     processorRef := Some processor;
     isRecording := true;
     lastResult := lastResult s;
     browser := {| liveStreams := {[stream]} ∪ liveStreams b;
                   openContexts := {[context audioContext]} ∪ openContexts b;
                   connected := {[processor]} ∪ connected b;
                   fresh := S (S (S (fresh b))) |} |}.

(** [processor.onaudioprocess] (lines 71-74): the callback body. *)
Definition onaudioprocess (channelData : list float) (s : State) : State :=
  {| framesRef := framesRef s ++ [Float32Array.copy channelData];
     mediaStreamRef := mediaStreamRef s; processorRef := processorRef s;
     audioContextRef := audioContextRef s; isRecording := isRecording s;
     lastResult := lastResult s; browser := browser s |}.

(** The browser hands a chunk to the callback only while a script processor
    is connected. *)
Definition deliver (channelData : list float) (s : State) : State :=
  if decide (connected (browser s) = ∅) then s else onaudioprocess channelData s.

(** [finish] (lines 82-121).  [detached] is the state once the processor
    is disconnected and the tracks are stopped; a throwing
    [computeVoicePrint] leaves the hook there.  The frame buffer is read,
    never emptied. *)
Definition finish (s : State) : State * Outcome (option (VoiceCaptureResult Features)) :=
  if negb (isRecording s) then (s, Resolved None)
  else
    match audioContextRef s with
    | None => (stop s, Resolved None)
    | Some audioContext =>
        let detached :=
          {| processorRef := None; mediaStreamRef := None;
             audioContextRef := audioContextRef s; isRecording := isRecording s;
             framesRef := framesRef s; lastResult := lastResult s;
             browser := stopTracks (mediaStreamRef s)
                          (disconnect (processorRef s) (browser s)) |} in
        match assemble (framesRef s) with
        | None => (detached, Rejected)
        | Some result =>
            match computeVoicePrint result with
            | None => (detached, Rejected)
            | Some voicePrint =>
                let payload :=
                  {| vector := print_vector voicePrint;
                     features := print_features voicePrint;
                     raw := result;
                     sampleRate := rate audioContext |} in
                ({| lastResult := Some payload;
                    audioContextRef := None;
                    isRecording := false;
                    processorRef := None; mediaStreamRef := None;
                    framesRef := framesRef s;
                    browser := close (Some audioContext) (browser detached) |},
                 Resolved (Some payload))
            end
        end
    end.

(** *** Sessions as sequences of events

    Calls and chunk deliveries are taken one at a time: each runs to its end,
    and the component has rendered again, before the next begins. *)

Inductive Event : Type :=
  | Start (device : option float)
  | Chunk (channelData : list float)
  | Finish
  | Stop.

(** What the caller of an event sees. *)
Inductive Seen : Type :=
  | Started (outcome : Outcome unit)
  | Finished (outcome : Outcome (option (VoiceCaptureResult Features)))
  | Silent.

Definition step (s : State) (e : Event) : State * Seen :=
  match e with
  | Start device => let '(s', o) := start device s in (s', Started o)
  | Chunk channelData => (deliver channelData s, Silent)
  | Finish => let '(s', o) := finish s in (s', Finished o)
  | Stop => (stop s, Silent)
  end.

Definition run (s : State) (events : list Event) : State :=
  foldl (λ s e, fst (step s e)) s events.

(** Everything the caller sees along [events]. *)
Fixpoint trace (s : State) (events : list Event) : list Seen :=
  match events with
  | [] => []
  | e :: events => snd (step s e) :: trace (fst (step s e)) events
  end.

(** *** Calls that overlap

    [start] is an [async] function: it returns at its [await] (line 62) and
    goes on when [getUserMedia] settles.  In between the component renders
    and anything may happen, a further call of [start] included: its guard
    still reads [isRecording = false].  An [Action] is one turn of the event
    loop:
    - [Request]: [start] is called and runs up to its [await],
    - [Settle device]: a pending [getUserMedia] request settles and the
      call that made it goes on,
    - [Do e]: one of the events above, taken in one piece. *)
Inductive Action : Type :=
  | Request
  | Settle (device : option float)
  | Do (e : Event).

(** The hook, and how many [getUserMedia] requests have not settled yet.
    The requests are all [{ audio: true }], so their number is all there is
    to know of them. *)
Record Async : Type := {
  hook : State;
  waiting : nat }.

Definition act (a : Async) (x : Action) : Async * Seen :=
  match x with
  | Request =>
      if isRecording (hook a) then (a, Started (Resolved ()))
      else ({| hook := hook a; waiting := S (waiting a) |}, Silent)
  | Settle device =>
      match waiting a, device with
      | 0, _ => (a, Silent)
      | S n, None => ({| hook := hook a; waiting := n |}, Started Rejected)
      | S n, Some sampleRate =>
          ({| hook := resume sampleRate (hook a); waiting := n |},
           Started (Resolved ()))
      end
  | Do e =>
      let '(s, seen) := step (hook a) e in
      ({| hook := s; waiting := waiting a |}, seen)
  end.

Definition perform (a : Async) (actions : list Action) : Async :=
  foldl (λ a x, fst (act a x)) a actions.

(** Everything the callers see along [actions]. *)
Fixpoint observe (a : Async) (actions : list Action) : list Seen :=
  match actions with
  | [] => []
  | x :: actions => snd (act a x) :: observe (fst (act a x)) actions
  end.

(** The hook as mounted: idle, nothing requested. *)
Definition mounted : Async := {| hook := initial; waiting := 0 |}.

(** The states the hook can get into. *)
Definition reachable (s : State) : Prop :=
  ∃ actions, s = hook (perform mounted actions).

(** The same state with another frame buffer. *)
Definition withFrames (frames : list (list float)) (s : State) : State :=
  {| framesRef := frames;
     mediaStreamRef := mediaStreamRef s; processorRef := processorRef s;
     audioContextRef := audioContextRef s; isRecording := isRecording s;
     lastResult := lastResult s; browser := browser s |}.

End Hook.

(** *** What the hook holds *)

(** Nothing of the browser is held. *)
Definition released (b : Browser) : Prop :=
  liveStreams b = ∅ ∧ openContexts b = ∅ ∧ connected b = ∅.

(** The states the hook is in as long as every call of [start] has settled
    before the next thing happens: idle with every ref cleared and nothing
    held; recording with the three objects of this session, and only them,
    alive; or left behind by a [finish] whose extractor threw, with the audio
    context of the session still open. *)
Definition consistent {Features : Type} (s : State (Features := Features)) : Prop :=
  match isRecording s, audioContextRef s, processorRef s, mediaStreamRef s with
  | false, None, None, None => released (browser s)
  | true, Some c, Some p, Some m =>
      liveStreams (browser s) = {[m]}
      ∧ openContexts (browser s) = {[context c]}
      ∧ connected (browser s) = {[p]}
  | true, Some c, None, None =>
      liveStreams (browser s) = ∅
      ∧ openContexts (browser s) = {[context c]}
      ∧ connected (browser s) = ∅
  | _, _, _, _ => False
  end.

(** A stream [m], an audio context [c] and a script processor [p] that are
    alive, were created by the hook, and that no ref names any more. *)
Definition orphaned {Features : Type} (m c p : nat)
  (s : State (Features := Features)) : Prop :=
  (m ∈ liveStreams (browser s) ∧ c ∈ openContexts (browser s)
   ∧ p ∈ connected (browser s))
  ∧ (mediaStreamRef s ≠ Some m
     ∧ (∀ audioContext, audioContextRef s = Some audioContext → context audioContext ≠ c)
     ∧ processorRef s ≠ Some p)
  ∧ (m < fresh (browser s) ∧ c < fresh (browser s) ∧ p < fresh (browser s)).

(** *** Sample sessions *)

(** An extractor to run sessions with: the samples themselves, no summary. *)
Definition echoPrint (samples : list float) : option (VoicePrint unit) :=
  Some {| print_vector := samples; print_features := () |}.

(** Modelled from the spec: [computeVoicePrint] is not among the sources.
    The Feature Extractor of the spec refuses the empty waveform ("a
    zero-length Waveform fails with EmptyCaptureError"); on every other
    waveform this stand-in echoes the samples. *)
Definition refusingEmpty (samples : list float) : option (VoicePrint unit) :=
  match samples with
  | [] => None
  | _ :: _ => echoPrint samples
  end.

(** A session that was started and has received one chunk. *)
Definition oneChunk : State (Features := unit) :=
  run echoPrint initial [Start (Some 48000%float); Chunk [1%float; 2%float]].

End Capture.

(** ** Request bodies and their validation *)

(** The value [await request.json()] yields.  A number read by [JSON.parse]
    is a binary64 value; it is never NaN, and an overflowing literal reads
    as an infinity. *)
Inductive Json : Type :=
  | JNull
  | JBool (b : bool)
  | JNumber (x : float)
  | JString (s : string)
  | JArray (items : list Json)
  | JObject (members : list (string * Json)).

(** Of two members with one name, [JSON.parse] keeps the later. *)
Fixpoint assoc (key : string) (members : list (string * Json)) : option Json :=
  match members with
  | [] => None
  | (k, v) :: members =>
      match assoc key members with
      | Some later => Some later
      | None => if decide (k = key) then Some v else None
      end
  end.

(** [body.key], with [None] for [undefined]. *)
Definition member (key : string) (body : Json) : option Json :=
  match body with
  | JObject members => assoc key members
  | _ => None
  end.

(** The zod combinators the two schemas use, each from the value of a member
    ([None] for [undefined]) to the parsed value ([None] for an issue). *)
Module z.

Definition string (v : option Json) : option String.string :=
  match v with
  | Some (JString s) => Some s
  | _ => None
  end.

(** [z.number()] takes every finite number and refuses NaN.  Whether it
    takes an infinity differs between zod releases; [infinities] says
    whether the installed one does. *)
Definition number (infinities : bool) (v : Json) : option float :=
  match v with
  | JNumber x =>
      if is_finite x || (infinities && negb (is_nan x)) then Some x else None
  | _ => None
  end.

(** [z.number().min(lo).max(hi)] *)
Definition numberBetween (infinities : bool) (lo hi : float) (v : option Json)
  : option float :=
  x ← v ≫= number infinities;
  if (lo <=? x)%float && (x <=? hi)%float then Some x else None.

(** [z.array(item)] *)
Definition array {A : Type} (item : Json → option A) (v : option Json)
  : option (list A) :=
  match v with
  | Some (JArray items) => mapM item items
  | _ => None
  end.

(** [inner.optional()] *)
Definition optional {A : Type} (inner : option Json → option A) (v : option Json)
  : option (option A) :=
  match v with
  | None => Some None
  | Some _ => Some <$> inner v
  end.

(** [inner.default(d)] *)
Definition default {A : Type} (d : A) (inner : option Json → option A)
  (v : option Json) : option A :=
  match v with
  | None => Some d
  | Some _ => inner v
  end.

End z.

(** [NextResponse.json(body, { status })]: the body is either the payload or
    [{ error: message }]. *)
Inductive Body (A : Type) : Type :=
  | Payload (payload : A)
  | Error (error : string).
Arguments Payload {A} payload.
Arguments Error {A} error.

Record Response (A : Type) : Type := {
  status : nat;
  body : Body A }.
Arguments status {A} _.
Arguments body {A} _.

(** ** The persistence layer *)

(** Modelled from the spec: the Prisma schema is not among the sources; a
    stored profile is the VoiceProfile of the data model,
    [{ identityId, vector, modelVersion, createdAt }]. *)
Record VoiceProfile : Type := {
  identityId : string;
  profileVector : list float;
  profileVersion : string;
  createdAt : nat }.

(** The two tables the handlers read and write: the ids of the contacts, and
    the voice profile of each contact that has one. *)
Record Db : Type := {
  contacts : gset string;
  voiceProfiles : gmap string VoiceProfile }.

(** [prisma.contact.findUnique({ where: { id } })], as "was one found". *)
Definition findUnique (id : string) (db : Db) : bool :=
  bool_decide (id ∈ contacts db).

(** ** [POST /api/voice/register] *)

Module Register.

(** The parsed request, [z.infer<typeof schema>]. *)
Record Data : Type := {
  contactId : string;
  vector : list float;
  recordingUrl : option string;
  modelVersion : string }.

(** [schema] (lines 6-11). *)
Definition schema (infinities : bool) (request : Json) : option Data :=
  match request with
  | JObject _ =>
      contactId ← z.string (member "contactId" request);
      vector ← z.array (z.number infinities) (member "vector" request);
      recordingUrl ← z.optional z.string (member "recordingUrl" request);
      modelVersion ← z.default "mfcc-v1"%string z.string (member "modelVersion" request);
      Some {| contactId := contactId; vector := vector;
              recordingUrl := recordingUrl; modelVersion := modelVersion |}
  | _ => None
  end.

Section Handler.

Variable infinities : bool.

(** [parsed.error.message], the text zod makes of the issues. *)
Variable message : Json → string.

(** [storeVoiceProfile] is imported from [@/lib/voice]; the handler only
    calls it.  It answers with the stored profile, or throws ([None]), and
    leaves the database as it made it. *)
Variable storeVoiceProfile : Data → Db → option VoiceProfile * Db.

(** [POST] (lines 13-36). *)
Definition POST (request : Json) (db : Db) : Response VoiceProfile * Db :=
  match schema infinities request with
  | None => ({| status := 400; body := Error (message request) |}, db)
  | Some data =>
      if findUnique (contactId data) db then
        match storeVoiceProfile data db with
        | (Some profile, db') => ({| status := 200; body := Payload profile |}, db')
        | (None, db') =>
            ({| status := 500; body := Error "Failed to register voice profile" |}, db')
        end
      else ({| status := 404; body := Error "Contact not found" |}, db)
  end.

End Handler.

(** Modelled from the spec: [storeVoiceProfile] of [@/lib/voice] is not
    among the sources.  The Profile Store's
    [save(identityId, vector, modelVersion) -> VoiceProfile] replaces any
    profile the identity has; [now] is the creation time. *)
Definition save (now : nat) (data : Data) (db : Db) : option VoiceProfile * Db :=
  let profile :=
    {| identityId := contactId data; profileVector := vector data;
       profileVersion := modelVersion data; createdAt := now |} in
  (Some profile,
   {| contacts := contacts db;
      voiceProfiles := <[contactId data := profile]> (voiceProfiles db) |}).

End Register.

(** ** [POST /api/voice/verify] *)

Module Verify.

(** [interface VerificationResult] of the data model; the handler passes it
    through as JSON. *)
Record VerificationResult : Type := {
  similarity : float;
  threshold : float;
  verified : bool }.

(** The parsed request. *)
Record Data : Type := {
  contactId : string;
  vector : list float;
  requested : option float }.

(** [schema] (lines 5-9); [requested] is the [threshold] member. *)
Definition schema (infinities : bool) (request : Json) : option Data :=
  match request with
  | JObject _ =>
      contactId ← z.string (member "contactId" request);
      vector ← z.array (z.number infinities) (member "vector" request);
      requested ← z.optional (z.numberBetween infinities 0 1) (member "threshold" request);
      Some {| contactId := contactId; vector := vector; requested := requested |}
  | _ => None
  end.

Section Handler.

Variable infinities : bool.
Variable message : Json → string.

(** What a failing call throws; the handler logs it and does not look at it. *)
Context {Thrown : Type}.

(** [verifyVoiceProfile] is imported from [@/lib/voice]. *)
Variable verifyVoiceProfile : Data → Db → Thrown + VerificationResult.

(** [POST] (lines 11-26). *)
Definition POST (request : Json) (db : Db) : Response VerificationResult :=
  match schema infinities request with
  | None => {| status := 400; body := Error (message request) |}
  | Some data =>
      match verifyVoiceProfile data db with
      | inr result => {| status := 200; body := Payload result |}
      | inl _ => {| status := 500; body := Error "Failed to verify voice profile" |}
      end
  end.

End Handler.

(** *** The Verifier *)

(** What [verify] fails with.  The spec names no type for the error of a
    score that is not finite; it is [NonFiniteSimilarityError] here. *)
Inductive VerifyError : Type :=
  | VectorDimensionMismatchError
  | NonFiniteSimilarityError
  | NotFound.

(** Modelled from the spec: the default threshold, "a pipeline constant
    (e.g. 0.85)". *)
Definition DEFAULT_THRESHOLD : float := 0.85%float.

Definition dot (a b : list float) : float :=
  foldl (λ acc p, acc + p.1 * p.2)%float 0%float (zip a b).

(** Modelled from the spec: "cosine similarity between the two vectors". *)
Definition cosineSimilarity (a b : list float) : float :=
  (dot a b / (sqrt (dot a a) * sqrt (dot b b)))%float.

(** Modelled from the spec: "clamped to [-1, 1]". *)
Definition clamp (x : float) : float :=
  if (x <? -1)%float then (-1)%float
  else if (1 <? x)%float then 1%float
  else x.

(** Modelled from the spec: [verifyVoiceProfile] of [@/lib/voice] is not
    among the sources.  This is the Verifier's
    [verify(candidateVector, storedProfile, threshold = default)]: vectors of
    different lengths fail with [VectorDimensionMismatchError]; otherwise the
    similarity is the clamped cosine similarity, [verified] is
    [similarity >= threshold], and the threshold used is echoed.  A cosine
    similarity that came out as NaN or as an infinity (a norm of zero, sums
    that overflowed or underflowed) is not made into a score: "if they
    would, the operation fails with a typed error rather than returning a
    poisoned value". *)
Definition verify (candidateVector : list float) (storedProfile : VoiceProfile)
  (requested : option float) : VerifyError + VerificationResult :=
  if decide (length candidateVector = length (profileVector storedProfile)) then
    let cosine := cosineSimilarity candidateVector (profileVector storedProfile) in
    let threshold := default DEFAULT_THRESHOLD requested in
    if is_finite cosine then
      inr {| similarity := clamp cosine; threshold := threshold;
             verified := (threshold <=? clamp cosine)%float |}
    else inl NonFiniteSimilarityError
  else inl VectorDimensionMismatchError.

(** Modelled from the spec: the call the handler makes, [load] of the Profile
    Store followed by [verify]. *)
Definition verifyVoiceProfile (data : Data) (db : Db) : VerifyError + VerificationResult :=
  match voiceProfiles db !! contactId data with
  | None => inl NotFound
  | Some storedProfile => verify (vector data) storedProfile (requested data)
  end.

End Verify.

(** ** Sample data *)

Module Samples.

(** A database with one contact, who has a profile of three coefficients. *)
Definition oneContact : Db :=
  {| contacts := {["c1"%string]};
     voiceProfiles :=
       {["c1"%string := {| identityId := "c1"; profileVector := [1; 2; 3]%float;
                           profileVersion := "mfcc-v0"; createdAt := 0 |}]} |}.

Definition noMessage (request : Json) : string := "invalid"%string.

(** A stored profile with the vector [v]. *)
Definition stored (v : list float) : VoiceProfile :=
  {| identityId := "c1"; profileVector := v; profileVersion := "mfcc-v1";
     createdAt := 0 |}.

End Samples.

(** ** The voice handlers of the dashboard

    [handleVoiceEnrollment] and [handleVoiceVerification] of
    [DashboardShell] take the last payload of the capture hook and post it to
    the two handlers above. *)

Module Dashboard.

(** A number that went through [JSON.stringify] and then [JSON.parse]:
    NaN and the infinities are written as [null], [-0] is written as [0],
    every other number reads back as itself. *)
Definition normalise (x : float) : float :=
  if is_zero x then 0%float else x.

Definition received (x : float) : option float :=
  if is_finite x then Some (normalise x) else None.

Definition wireNumber (x : float) : Json :=
  match received x with
  | Some y => JNumber y
  | None => JNull
  end.

(** [response.ok] *)
Definition ok {A : Type} (response : Response A) : bool :=
  bool_decide (200 ≤ status response ≤ 299).

(** [error?.error ?? fallback], for the body of a response. *)
Definition errorOr {A : Type} (fallback : string) (response : Response A) : string :=
  match body response with
  | Error error => error
  | Payload _ => fallback
  end.

(** The [voiceVerification] cell as the page reads it: a number that
    arrived as [null] is [None]. *)
Record Shown : Type := {
  similarity : option float;
  threshold : option float;
  verified : bool }.

(** [(await response.json()) as { similarity, threshold, verified }] *)
Definition shown (response : Response Verify.VerificationResult) : Shown :=
  match body response with
  | Payload result =>
      {| similarity := received (Verify.similarity result);
         threshold := received (Verify.threshold result);
         verified := Verify.verified result |}
  | Error _ => {| similarity := None; threshold := None; verified := false |}
  end.

(** The two state cells of the voice panel. *)
Record State : Type := {
  voiceEnrollmentStatus : option string;
  voiceVerification : option Shown }.

Definition setVoiceEnrollmentStatus (status : string) (s : State) : State :=
  {| voiceEnrollmentStatus := Some status; voiceVerification := voiceVerification s |}.

Definition setVoiceVerification (result : Shown) (s : State) : State :=
  {| voiceEnrollmentStatus := voiceEnrollmentStatus s; voiceVerification := Some result |}.

(** What the page renders for the [voiceVerification] cell (lines 570-579):
    nothing while the cell is [null], otherwise a card with a headline and a
    line of detail.  Rendering the card calls [toFixed] on the similarity and
    on the threshold; on a number that arrived as [null] that call throws a
    [TypeError], and with it the render. *)
Inductive Panel : Type :=
  | Hidden
  | Card (headline detail : string)
  | RenderError.

Section Render.

(** [Number.prototype.toFixed], with the number of digits first. *)
Variable toFixed : nat → float → string.

Definition verificationPanel (s : State) : Panel :=
  match voiceVerification s with
  | None => Hidden
  | Some voiceVerification =>
      match similarity voiceVerification, threshold voiceVerification with
      | Some similarity, Some threshold =>
          Card (if verified voiceVerification then "voice matched" else "voice mismatch")
               ("Similarity " +:+ toFixed 3 similarity
                +:+ " vs threshold " +:+ toFixed 2 threshold)
      | _, _ => RenderError
      end
  end.

End Render.

Section Handlers.

Context {Features : Type}.
Variable infinities : bool.
Variable message : Json → string.

(** The body [handleVoiceEnrollment] posts, as the server reads it. *)
Definition enrollmentRequest (contactId : string)
  (lastResult : Capture.VoiceCaptureResult Features) : Json :=
  JObject [("contactId"%string, JString contactId);
           ("vector"%string, JArray (wireNumber <$> Capture.vector lastResult));
           ("modelVersion"%string, JString "atlas-mfcc-v1")].

(** The body [handleVoiceVerification] posts, as the server reads it. *)
Definition verificationRequest (contactId : string)
  (lastResult : Capture.VoiceCaptureResult Features) : Json :=
  JObject [("contactId"%string, JString contactId);
           ("vector"%string, JArray (wireNumber <$> Capture.vector lastResult))].

Section Enrollment.

Variable storeVoiceProfile : Register.Data → Db → option VoiceProfile * Db.

(** [handleVoiceEnrollment], with the register handler as the server behind
    [fetch]; every request is taken to arrive and to be answered. *)
Definition handleVoiceEnrollment
  (lastResult : option (Capture.VoiceCaptureResult Features))
  (contactId : string) (s : State) (db : Db) : State * Db :=
  match lastResult with
  | None => (setVoiceEnrollmentStatus "Capture a voice sample first." s, db)
  | Some lastResult =>
      let '(response, db') :=
        Register.POST infinities message storeVoiceProfile
          (enrollmentRequest contactId lastResult) db in
      if ok response
      then (setVoiceEnrollmentStatus "Voice profile enrolled successfully." s, db')
      else (setVoiceEnrollmentStatus
              (errorOr "Failed to register voice profile" response) s, db')
  end.

End Enrollment.

Section Verification.

Context {Thrown : Type}.
Variable verifyVoiceProfile : Verify.Data → Db → Thrown + Verify.VerificationResult.

(** [handleVoiceVerification], with the verify handler as the server. *)
Definition handleVoiceVerification
  (lastResult : option (Capture.VoiceCaptureResult Features))
  (contactId : string) (s : State) (db : Db) : State :=
  match lastResult with
  | None => setVoiceEnrollmentStatus "Capture a voice sample first." s
  | Some lastResult =>
      let response :=
        Verify.POST infinities message verifyVoiceProfile
          (verificationRequest contactId lastResult) db in
      if ok response
      then setVoiceVerification (shown response) s
      else setVoiceEnrollmentStatus (errorOr "Voice verification failed" response) s
  end.

End Verification.

End Handlers.

End Dashboard.

(** *** Sample panels *)

Module DashboardSamples.

(** The hook after the sample session was finished. *)
Definition finished : Capture.State (Features := unit) :=
  fst (Capture.finish Capture.echoPrint Capture.oneChunk).

(** The payload it resolved with. *)
Definition captured : Capture.VoiceCaptureResult unit :=
  {| Capture.vector := [1%float; 2%float]; Capture.features := ();
     Capture.raw := [1%float; 2%float]; Capture.sampleRate := 48000%float |}.

(** A payload with a NaN in its vector. *)
Definition poisoned : Capture.VoiceCaptureResult unit :=
  {| Capture.vector := [1%float; nan]; Capture.features := ();
     Capture.raw := []; Capture.sampleRate := 48000%float |}.

Definition blank : Dashboard.State :=
  {| Dashboard.voiceEnrollmentStatus := None; Dashboard.voiceVerification := None |}.

(** A verifier that answers with a similarity that is no number. *)
Definition notANumber (data : Verify.Data) (db : Db) : unit + Verify.VerificationResult :=
  inr {| Verify.similarity := nan; Verify.threshold := 0.85%float;
         Verify.verified := false |}.

(** A verifier that answers with a match. *)
Definition matching (data : Verify.Data) (db : Db) : unit + Verify.VerificationResult :=
  inr {| Verify.similarity := 1%float; Verify.threshold := 0.85%float;
         Verify.verified := true |}.

(** A stand-in for [toFixed]: the number of digits asked for. *)
Definition digits (n : nat) (x : float) : string :=
  match n with
  | 2 => "2"
  | 3 => "3"
  | _ => "?"
  end.

End DashboardSamples.

(** ** Histories of the capture hook *)

Module Sessions.
Import Capture.

(** The payload of the last [finish] that resolved with one, if any. *)
Fixpoint lastPayload {Features : Type} (seen : list (Seen (Features := Features)))
  : option (VoiceCaptureResult Features) :=
  match seen with
  | [] => None
  | Finished (Resolved (Some payload)) :: seen =>
      match lastPayload seen with
      | Some later => Some later
      | None => Some payload
      end
  | _ :: seen => lastPayload seen
  end.

(** Events during which a recording goes on: chunks, and calls of
    [start]. *)
Definition recordingEvent (e : Event) : bool :=
  match e with
  | Start _ => true
  | Chunk _ => true
  | Finish => false
  | Stop => false
  end.

(** The chunks among [events], in their order. *)
Definition chunksOf (events : list Event) : list (list float) :=
  omap (λ e, match e with Chunk channelData => Some channelData | _ => None end) events.

End Sessions.

(** ** The tags of the contact form

    [contactMutation] turns the text of the tags field into the array it
    posts: [payload.tags.split(',').map((tag) => tag.trim()).filter(Boolean)].
    A string is taken as the list of its UTF-16 code units. *)

Module Tags.

(** [','] *)
Definition comma : N := 44%N.

(** The code units [trim] strips: WhiteSpace and LineTerminator of
    ECMAScript (tab, line feed, vertical tab, form feed, carriage return,
    space, no-break space, U+1680, U+2000 to U+200A, U+2028, U+2029, U+202F,
    U+205F, U+3000 and U+FEFF). *)
Definition isWhiteSpace (c : N) : bool :=
  bool_decide (c ∈ [9; 10; 11; 12; 13; 32; 160; 5760;
                    8192; 8193; 8194; 8195; 8196; 8197; 8198; 8199; 8200; 8201; 8202;
                    8232; 8233; 8239; 8287; 12288; 65279]%N).

(** [s.split(',')] *)
Fixpoint split (s : list N) : list (list N) :=
  match s with
  | [] => [[]]
  | c :: s =>
      if decide (c = comma) then [] :: split s
      else
        match split s with
        | piece :: pieces => (c :: piece) :: pieces
        | [] => [[c]]
        end
  end.

Fixpoint trimStart (s : list N) : list N :=
  match s with
  | [] => []
  | c :: rest => if isWhiteSpace c then trimStart rest else s
  end.

Definition trimEnd (s : list N) : list N :=
  reverse (trimStart (reverse s)).

(** [s.trim()] *)
Definition trim (s : list N) : list N := trimEnd (trimStart s).

(** [payload.tags ? payload.tags.split(',').map(trim).filter(Boolean) : []];
    [None] is a field left [undefined]. *)
Definition tagsOf (tags : option (list N)) : list (list N) :=
  match tags with
  | None => []
  | Some [] => []
  | Some s => filter (λ tag, tag ≠ []) (trim <$> split s)
  end.

(** [tags.join(',')] *)
Fixpoint join (tags : list (list N)) : list N :=
  match tags with
  | [] => []
  | [tag] => tag
  | tag :: tags => tag ++ comma :: join tags
  end.

(** A tag as the form produces them: not empty, without a comma, and with
    no white space at either end. *)
Definition clean (tag : list N) : Prop :=
  tag ≠ []
  ∧ (comma ∉ tag)
  ∧ (∀ c, head tag = Some c → isWhiteSpace c = false)
  ∧ (∀ c, last tag = Some c → isWhiteSpace c = false).

(** ["vip, onboarding ,,x"] *)
Definition typed : list N :=
  [118; 105; 112; 44; 32; 111; 110; 98; 111; 97; 114; 100; 105; 110; 103; 32; 44; 44; 120]%N.

End Tags.

(** ** Rows and what the pages make of them

    The home page ([Home]) and the two list handlers ([GET /api/calls],
    [GET /api/contacts]) turn database rows into the records the dashboard
    shows.  A [Date] is its time value in milliseconds. *)

(** A contact row with its voice profile, as far as the code reads it. *)
Module Contact.

Record Profile : Type := {
  id : string;
  modelVersion : string }.

Record Row : Type := {
  rowId : string;
  name : string;
  phone : string;
  email : option string;
  company : option string;
  whatsappOptIn : bool;
  tags : option string;
  notes : option string;
  createdAt : Z;
  voiceProfile : option Profile }.

End Contact.

(** A call row with its contact and transcript. *)
Module Call.

Record Row : Type := {
  id : string;
  direction : string;
  status : string;
  subject : option string;
  startedAt : Z;
  endedAt : option Z;
  sentimentScore : option float;
  sentimentLabel : option string;
  summary : option string;
  highlights : option string;
  actions : option string;
  recordingUrl : option string;
  contact : option Contact.Row;
  transcript : option (option string) }.

End Call.

(** [interface DashboardContact] *)
Module DashboardContact.

Record t : Type := {
  id : string;
  name : string;
  phone : string;
  email : option string;
  company : option string;
  whatsappOptIn : bool;
  tags : list string;
  notes : option string;
  createdAt : string;
  voiceProfileId : option string;
  voiceModelVersion : option string }.

End DashboardContact.

(** [interface DashboardCall] *)
Module DashboardCall.

Inductive Direction : Type := INBOUND | OUTBOUND.

Record Party : Type := {
  partyId : string;
  partyName : string;
  partyPhone : string }.

Record t : Type := {
  id : string;
  direction : Direction;
  status : string;
  subject : option string;
  startedAt : string;
  endedAt : option string;
  sentimentScore : option float;
  sentimentLabel : option string;
  summary : option string;
  highlights : list string;
  actions : list string;
  contact : option Party;
  transcript : option (option string) }.

End DashboardCall.

(** [interface DashboardMetrics] *)
Module DashboardMetrics.

Record t : Type := {
  totalContacts : nat;
  totalCalls : nat;
  voiceProfiles : nat;
  positiveSentiment : nat;
  tasksPending : nat;
  whatsappOptIns : nat }.

End DashboardMetrics.

Module Pages.

(** [parsed.filter((item) => typeof item === 'string')] *)
Definition strings (parsed : list Json) : list string :=
  omap (λ item, match item with JString s => Some s | _ => None end) parsed.

Section Mapping.

(** [JSON.parse]; [None] when it throws. *)
Variable JSON_parse : string → option Json.

(** [date.toISOString()] *)
Variable toISOString : Z → string.

(** The [try] block the three parsers share. *)
Definition stringArray (value : string) : list string :=
  match JSON_parse value with
  | Some (JArray parsed) => strings parsed
  | Some _ => []
  | None => []
  end.

(** [parseJsonArray] of the home page. *)
Definition parseJsonArray (raw : option string) : list string :=
  match raw with
  | None => []
  | Some EmptyString => []
  | Some raw => stringArray raw
  end.

(** [parseTags] of the home page. *)
Definition parseTags (raw : option string) : list string :=
  match raw with
  | None => []
  | Some EmptyString => []
  | Some raw => stringArray raw
  end.

(** [safeParseArray] of the list handlers. *)
Definition safeParseArray (value : string) : list string := stringArray value.

(** [value ? safeParseArray(value) : []] *)
Definition parsedOrEmpty (value : option string) : list string :=
  match value with
  | None => []
  | Some EmptyString => []
  | Some value => safeParseArray value
  end.

Definition directionOf (direction : string) : DashboardCall.Direction :=
  if decide (direction = "INBOUND"%string) then DashboardCall.INBOUND
  else DashboardCall.OUTBOUND.

Definition partyOf (contact : Contact.Row) : DashboardCall.Party :=
  {| DashboardCall.partyId := Contact.rowId contact;
     DashboardCall.partyName := Contact.name contact;
     DashboardCall.partyPhone := Contact.phone contact |}.

(** *** [Home] *)


(** One element of [contactsPayload]. *)
Definition homeContact (contact : Contact.Row) : DashboardContact.t :=
  {| DashboardContact.id := Contact.rowId contact;
     DashboardContact.name := Contact.name contact;
     DashboardContact.phone := Contact.phone contact;
     DashboardContact.email := Contact.email contact;
     DashboardContact.company := Contact.company contact;
     DashboardContact.whatsappOptIn := Contact.whatsappOptIn contact;
     DashboardContact.tags := parseTags (Contact.tags contact);
     DashboardContact.notes := Contact.notes contact;
     DashboardContact.createdAt := toISOString (Contact.createdAt contact);
     DashboardContact.voiceProfileId := Contact.id <$> Contact.voiceProfile contact;
     DashboardContact.voiceModelVersion :=
       Contact.modelVersion <$> Contact.voiceProfile contact |}.

(** One element of [callsPayload]. *)
Definition homeCall (call : Call.Row) : DashboardCall.t :=
  {| DashboardCall.id := Call.id call;
     DashboardCall.direction := directionOf (Call.direction call);
     DashboardCall.status := Call.status call;
     DashboardCall.subject := Call.subject call;
     DashboardCall.startedAt := toISOString (Call.startedAt call);
     DashboardCall.endedAt := toISOString <$> Call.endedAt call;
     DashboardCall.sentimentScore := Call.sentimentScore call;
     DashboardCall.sentimentLabel := Call.sentimentLabel call;
     DashboardCall.summary := Call.summary call;
     DashboardCall.highlights := parseJsonArray (Call.highlights call);
     DashboardCall.actions := parseJsonArray (Call.actions call);
     DashboardCall.contact := partyOf <$> Call.contact call;
     DashboardCall.transcript := Call.transcript call |}.

(** [metrics] of the home page. *)
Definition metrics (contacts : list Contact.Row) (calls : list Call.Row)
  : DashboardMetrics.t :=
  {| DashboardMetrics.totalContacts := length contacts;
     DashboardMetrics.totalCalls := length calls;
     DashboardMetrics.voiceProfiles :=
       length (filter (λ contact, is_Some (Contact.voiceProfile contact)) contacts);
     DashboardMetrics.positiveSentiment :=
       length (filter (λ call, Call.sentimentLabel call = Some "positive"%string) calls);
     DashboardMetrics.tasksPending :=
       foldl (λ acc call, acc + length (parseJsonArray (Call.actions call))) 0 calls;
     DashboardMetrics.whatsappOptIns :=
       length (filter (λ contact, Contact.whatsappOptIn contact = true) contacts) |}.

(** *** [GET /api/calls] and [GET /api/contacts] *)

(** One element of the [payload] of [GET /api/calls]. *)
Definition listedCall (call : Call.Row) : DashboardCall.t :=
  {| DashboardCall.id := Call.id call;
     DashboardCall.direction := directionOf (Call.direction call);
     DashboardCall.status := Call.status call;
     DashboardCall.subject := Call.subject call;
     DashboardCall.startedAt := toISOString (Call.startedAt call);
     DashboardCall.endedAt := toISOString <$> Call.endedAt call;
     DashboardCall.sentimentScore := Call.sentimentScore call;
     DashboardCall.sentimentLabel := Call.sentimentLabel call;
     DashboardCall.summary := Call.summary call;
     DashboardCall.highlights := parsedOrEmpty (Call.highlights call);
     DashboardCall.actions := parsedOrEmpty (Call.actions call);
     DashboardCall.contact := partyOf <$> Call.contact call;
     DashboardCall.transcript := Call.transcript call |}.

(** One element of the [payload] of [GET /api/contacts]. *)
Definition listedContact (contact : Contact.Row) : DashboardContact.t :=
  {| DashboardContact.id := Contact.rowId contact;
     DashboardContact.name := Contact.name contact;
     DashboardContact.phone := Contact.phone contact;
     DashboardContact.email := Contact.email contact;
     DashboardContact.company := Contact.company contact;
     DashboardContact.whatsappOptIn := Contact.whatsappOptIn contact;
     DashboardContact.tags := parsedOrEmpty (Contact.tags contact);
     DashboardContact.notes := Contact.notes contact;
     DashboardContact.createdAt := toISOString (Contact.createdAt contact);
     DashboardContact.voiceProfileId := Contact.id <$> Contact.voiceProfile contact;
     DashboardContact.voiceModelVersion :=
       Contact.modelVersion <$> Contact.voiceProfile contact |}.

End Mapping.

End Pages.

(** ** The sentiment pulse of the dashboard *)

Module Sentiment.

(** A length as a JavaScript number (exact below 2^53). *)
Fixpoint number (n : nat) : float :=
  match n with
  | 0 => 0%float
  | S n => (number n + 1)%float
  end.

(** [sentimentAverages] of [DashboardShell]; [data] is [callsQuery.data]. *)
Definition sentimentAverages (data : option (list DashboardCall.t)) : float * string :=
  let data := default [] data in
  let validScores :=
    filter (λ call, is_Some (DashboardCall.sentimentScore call)) data in
  match validScores with
  | [] => (0%float, "neutral"%string)
  | _ :: _ =>
      let average :=
        (foldl (λ acc call, acc + default 0 (DashboardCall.sentimentScore call))
           0 validScores / number (length validScores))%float in
      let label :=
        if (0.25 <? average)%float then "Positive"%string
        else if (average <? -0.25)%float then "Negative"%string
        else "Neutral"%string in
      (average, label)
  end.

End Sentiment.

(** ** The Twilio webhooks

    [POST] of the inbound voice webhook and of the status webhook.  A form
    is the map from field names to the strings [formData.get(name)?.toString()]
    yields.  Strings are compared byte by byte; the two patterns removed from
    a caller id are ASCII, so the first occurrence is the same one as in
    UTF-16. *)

Module Webhooks.

Fixpoint startsWith (pattern s : string) : bool :=
  match pattern, s with
  | EmptyString, _ => true
  | String a pattern, String b s => if decide (a = b) then startsWith pattern s else false
  | String _ _, EmptyString => false
  end.

Fixpoint skip (n : nat) (s : string) : string :=
  match n, s with
  | S n, String _ s => skip n s
  | _, _ => s
  end.

(** [s.replace(pattern, '')]: the first occurrence of [pattern] is taken
    out. *)
Fixpoint removeFirst (pattern s : string) : string :=
  if startsWith pattern s then skip (String.length pattern) s
  else
    match s with
    | EmptyString => EmptyString
    | String c rest => String c (removeFirst pattern rest)
    end.

(** [from.replace('whatsapp:', '').replace('tel:', '')] *)
Definition callerPhone (from : string) : string :=
  removeFirst "tel:" (removeFirst "whatsapp:" from).

(** [':'] *)
Definition colon : Ascii.ascii := Ascii.ascii_of_nat 58.

Fixpoint hasColon (s : string) : bool :=
  match s with
  | EmptyString => false
  | String c s => if decide (c = colon) then true else hasColon s
  end.

(** [!value] for a form field: absent or the empty string. *)
Definition missing (value : option string) : bool :=
  match value with
  | None => true
  | Some EmptyString => true
  | Some _ => false
  end.

(** The argument of [createCallRecord]. *)
Record CallRecord : Type := {
  contactId : option string;
  to : string;
  subject : string;
  direction : string;
  recordingUrl : option string;
  inboundFrom : string;
  twilioSid : option string }.

(** [new NextResponse(text, { status })] *)
Record Reply : Type := {
  code : nat;
  text : string }.

Definition quote : string := String (Ascii.ascii_of_nat 34) EmptyString.
Definition newline : string := String (Ascii.ascii_of_nat 10) EmptyString.

(** The [twiml] template. *)
Definition twiml (contact : option Contact.Row) : string :=
  ("<Response>" +:+ newline
   +:+ "  <Say voice=" +:+ quote +:+ "Polly.Joanna" +:+ quote +:+ ">Hello"
   +:+ match contact with
       | Some contact => " " +:+ Contact.name contact
       | None => EmptyString
       end
   +:+ ", thanks for calling. An AI agent will assist you now.</Say>" +:+ newline
   +:+ "  <Record timeout=" +:+ quote +:+ "3" +:+ quote
   +:+ " transcribe=" +:+ quote +:+ "false" +:+ quote +:+ " />" +:+ newline
   +:+ "</Response>")%string.

Section Handlers.

(** The call table, as the helpers of [@/lib/calls] keep it. *)
Context {Calls : Type}.

(** [createCallRecord] of [@/lib/calls]; [None] when it throws. *)
Variable createCallRecord : CallRecord → Calls → option Calls.

(** [POST] of the inbound webhook; [contacts] is the contact table by
    phone, which [findUnique({ where: { phone } })] reads.  An error thrown
    by [createCallRecord] is not caught. *)
Definition inbound (form : gmap string string) (contacts : gmap string Contact.Row)
  (calls : Calls) : Outcome Reply * Calls :=
  let from := form !! "From"%string in
  let to := form !! "To"%string in
  let callSid := form !! "CallSid"%string in
  let recordingUrl := form !! "RecordingUrl"%string in
  if missing from || missing to then
    (Resolved {| code := 400;
                 text := "<Response><Say>Invalid call payload.</Say></Response>" |},
     calls)
  else
    let from := default EmptyString from in
    let to := default EmptyString to in
    let contact := contacts !! callerPhone from in
    match createCallRecord
            {| contactId := Contact.rowId <$> contact;
               to := to;
               subject := "Inbound call";
               direction := "INBOUND";
               recordingUrl := recordingUrl;
               inboundFrom := from;
               twilioSid := callSid |} calls with
    | None => (Rejected, calls)
    | Some calls' => (Resolved {| code := 200; text := twiml contact |}, calls')
    end.

(** The second argument of [upsertCallByTwilioSid]. *)
Record StatusUpdate : Type := {
  newStatus : option string;
  newRecordingUrl : option string }.

(** [upsertCallByTwilioSid] of [@/lib/calls]; [None] when it throws. *)
Variable upsertCallByTwilioSid : string → StatusUpdate → Calls → option Calls.

(** [POST] of the status webhook.  After the update it builds its reply
    with [new NextResponse('', { status: 204 })]; the [Response] constructor
    refuses a body, the empty string included, with a status that allows
    none, and throws a [TypeError]: the update is written and the handler
    rejects. *)
Definition statusChanged (form : gmap string string) (calls : Calls)
  : Outcome (Response unit) * Calls :=
  let callSid := form !! "CallSid"%string in
  let callStatus := form !! "CallStatus"%string in
  let recordingUrl := form !! "RecordingUrl"%string in
  if missing callSid then
    (Resolved {| status := 400; body := Error "Missing CallSid" |}, calls)
  else
    match upsertCallByTwilioSid (default EmptyString callSid)
            {| newStatus := callStatus; newRecordingUrl := recordingUrl |} calls with
    | None => (Rejected, calls)
    | Some calls' => (Rejected, calls')
    end.

End Handlers.

End Webhooks.

(** ** The handlers of one call

    [POST /api/calls/[id]/transcribe], [.../insights] and [.../whatsapp].
    [calls] is the call table by id, each row with its contact and
    transcript; what the helpers of [@/lib] keep is [Store]. *)

Module CallRoutes.

(** [!value] for a string that may be null: null or empty. *)
Definition blank (value : option string) : bool :=
  match value with
  | None => true
  | Some EmptyString => true
  | Some _ => false
  end.

(** What the transcription service answers, as far as the handler reads
    it; [highlights] is [auto_highlights_result?.results?.map((item) =>
    item.text)]. *)
Record Transcription : Type := {
  text : option string;
  highlights : option (list string);
  language : option string;
  language_code : option string }.

(** The argument of [upsertTranscript]. *)
Record TranscriptInput : Type := {
  callId : string;
  transcriptText : string;
  redacted : string;
  keywords : list string;
  transcriptLanguage : option string }.

Definition transcriptOf (call : Call.Row) (transcription : Transcription)
  : TranscriptInput :=
  {| callId := Call.id call;
     transcriptText := default EmptyString (text transcription);
     redacted := default EmptyString (text transcription);
     keywords := default [] (highlights transcription);
     transcriptLanguage :=
       match language transcription with
       | Some l => Some l
       | None => language_code transcription
       end |}.

(** The argument of [generateCallInsights]. *)
Record InsightsInput : Type := {
  transcript : string;
  contactName : option string;
  conversationContext : option string }.

(** The argument of [sendWhatsappMessage]. *)
Record WhatsappInput : Type := {
  to : string;
  messageBody : string;
  messageCallId : string }.

(** [z.string().min(1)] *)
Definition nonEmptyString (v : option Json) : option string :=
  match z.string v with
  | Some EmptyString => None
  | other => other
  end.

(** [schema] of the whatsapp handler: [{ body: z.string().min(1) }]. *)
Definition schema (request : Json) : option string :=
  match request with
  | JObject _ => nonEmptyString (member "body" request)
  | _ => None
  end.

Section Handlers.

Context {Store Insights : Type}.
Variable message : Json → string.

(** The helpers of [@/lib/transcription], [@/lib/insights] and
    [@/lib/whatsapp]; each answers, or throws ([None]), and leaves the store
    as it made it. *)
Variable requestTranscriptionFromRecording : string → option Transcription.
Variable upsertTranscript : TranscriptInput → Store → option unit * Store.
Variable generateCallInsights : InsightsInput → option Insights.
Variable persistInsights : string → Insights → Store → option unit * Store.
Variable sendWhatsappMessage : WhatsappInput → Store → option string * Store.

(** [POST] of [transcribe/route.ts]. *)
Definition transcribe (id : string) (calls : gmap string Call.Row) (store : Store)
  : Response Transcription * Store :=
  match calls !! id with
  | None => ({| status := 404; body := Error "Call not found" |}, store)
  | Some call =>
      if blank (Call.recordingUrl call) then
        ({| status := 400; body := Error "Call does not have a recording URL" |}, store)
      else
        match requestTranscriptionFromRecording
                (default EmptyString (Call.recordingUrl call)) with
        | None => ({| status := 500; body := Error "Failed to transcribe call" |}, store)
        | Some transcription =>
            match upsertTranscript (transcriptOf call transcription) store with
            | (Some _, store') => ({| status := 200; body := Payload transcription |}, store')
            | (None, store') =>
                ({| status := 500; body := Error "Failed to transcribe call" |}, store')
            end
        end
  end.

(** [call.transcript?.text] *)
Definition spokenText (call : Call.Row) : option string :=
  Call.transcript call ≫= λ text, text.

(** [POST] of [insights/route.ts]. *)
Definition insights (id : string) (calls : gmap string Call.Row) (store : Store)
  : Response Insights * Store :=
  match calls !! id with
  | None => ({| status := 404; body := Error "Call not found" |}, store)
  | Some call =>
      if blank (spokenText call) then
        ({| status := 400; body := Error "Transcript not available" |}, store)
      else
        match generateCallInsights
                {| transcript := default EmptyString (spokenText call);
                   contactName := Contact.name <$> Call.contact call;
                   conversationContext := Call.subject call |} with
        | None => ({| status := 500; body := Error "Failed to generate insights" |}, store)
        | Some found =>
            match persistInsights (Call.id call) found store with
            | (Some _, store') => ({| status := 200; body := Payload found |}, store')
            | (None, store') =>
                ({| status := 500; body := Error "Failed to generate insights" |}, store')
            end
        end
  end.

(** [call.contact?.phone] *)
Definition contactPhone (call : Call.Row) : option string :=
  Contact.phone <$> Call.contact call.

(** [POST] of the whatsapp handler; the payload is [messageId]. *)
Definition whatsapp (id : string) (request : Json) (calls : gmap string Call.Row)
  (store : Store) : Response string * Store :=
  match calls !! id with
  | None => ({| status := 404; body := Error "Call not found" |}, store)
  | Some call =>
      if blank (contactPhone call) then
        ({| status := 400; body := Error "Contact phone not available" |}, store)
      else
        match schema request with
        | None => ({| status := 400; body := Error (message request) |}, store)
        | Some text =>
            match sendWhatsappMessage
                    {| to := default EmptyString (contactPhone call);
                       messageBody := text;
                       messageCallId := Call.id call |} store with
            | (Some sid, store') => ({| status := 200; body := Payload sid |}, store')
            | (None, store') =>
                ({| status := 500; body := Error "Failed to send WhatsApp message" |},
                 store')
            end
        end
  end.

End Handlers.

End CallRoutes.

(** ** Sample rows *)

Module RowSamples.

Definition avery : Contact.Row :=
  {| Contact.rowId := "c1"; Contact.name := "Avery"; Contact.phone := "+15551234567";
     Contact.email := None; Contact.company := None; Contact.whatsappOptIn := true;
     Contact.tags := None; Contact.notes := None; Contact.createdAt := 0%Z;
     Contact.voiceProfile := None |}.

(** A call of Avery's with a recording and a transcript. *)
Definition call1 : Call.Row :=
  {| Call.id := "k1"; Call.direction := "INBOUND"; Call.status := "completed";
     Call.subject := None; Call.startedAt := 0%Z; Call.endedAt := None;
     Call.sentimentScore := None; Call.sentimentLabel := None; Call.summary := None;
     Call.highlights := None; Call.actions := None;
     Call.recordingUrl := Some "https://example.org/r.mp3"%string;
     Call.contact := Some avery; Call.transcript := Some (Some "hello"%string) |}.

Definition callTable : gmap string Call.Row := {["k1"%string := call1]}.

Definition byPhone : gmap string Contact.Row := {["+15551234567"%string := avery]}.

(** A form Twilio posts for a WhatsApp call from Avery. *)
Definition ringing : gmap string string :=
  {["From"%string := "whatsapp:+15551234567"%string;
    "To"%string := "+15550000000"%string;
    "CallSid"%string := "CA1"%string]}.

(** Helpers that keep what they are given in a list. *)
Definition record (r : Webhooks.CallRecord) (calls : list Webhooks.CallRecord)
  : option (list Webhooks.CallRecord) := Some (calls ++ [r]).

Definition heard (url : string) : option CallRoutes.Transcription :=
  Some {| CallRoutes.text := None; CallRoutes.highlights := None;
          CallRoutes.language := None; CallRoutes.language_code := Some "en"%string |}.

Definition keep (t : CallRoutes.TranscriptInput) (store : list CallRoutes.TranscriptInput)
  : option unit * list CallRoutes.TranscriptInput := (Some (), store ++ [t]).

Definition think (i : CallRoutes.InsightsInput) : option string :=
  Some (CallRoutes.transcript i).

Definition persist (callId found : string) (store : list CallRoutes.TranscriptInput)
  : option unit * list CallRoutes.TranscriptInput := (Some (), store).

Definition send (m : CallRoutes.WhatsappInput) (store : list CallRoutes.TranscriptInput)
  : option string * list CallRoutes.TranscriptInput := (Some "SM1"%string, store).

(** A call as the dashboard holds it, with the given score. *)
Definition scoredCall (score : option float) : DashboardCall.t :=
  {| DashboardCall.id := "k1"; DashboardCall.direction := DashboardCall.INBOUND;
     DashboardCall.status := "completed"; DashboardCall.subject := None;
     DashboardCall.startedAt := "2024-01-01T00:00:00.000Z";
     DashboardCall.endedAt := None; DashboardCall.sentimentScore := score;
     DashboardCall.sentimentLabel := None; DashboardCall.summary := None;
     DashboardCall.highlights := []; DashboardCall.actions := [];
     DashboardCall.contact := None; DashboardCall.transcript := None |}.

Definition followUp : Json := JObject [("body"%string, JString "thanks")].

End RowSamples.
(** *** The assembled buffer is the concatenation of the frames *)

Lemma foldl_length_shift (frames : list (list float)) (n : nat) :
  foldl (λ acc frame, acc + length frame) n frames = n + totalLength frames.
Proof.
  unfold totalLength. revert n.
  induction frames as [|f frames IH]; intros n; simpl.
  - lia.
  - rewrite IH, (IH (length f)). lia.
Qed.

Lemma totalLength_cons (f : list float) (frames : list (list float)) :
  totalLength (f :: frames) = length f + totalLength frames.
Proof. unfold totalLength at 1. simpl. apply foldl_length_shift. Qed.

Lemma totalLength_concat (frames : list (list float)) :
  totalLength frames = length (concat frames).
Proof.
  induction frames as [|f frames IH]; [done|].
  rewrite totalLength_cons. simpl. rewrite length_app. lia.
Qed.

Lemma totalLength_sum (frames : list (list float)) :
  totalLength frames = sum_list (length <$> frames).
Proof.
  induction frames as [|f frames IH]; [done|].
  by rewrite totalLength_cons, IH.
Qed.

(** Writing [frame] right after an already written prefix [done], into a
    buffer whose remainder is still blank. *)
Lemma set_after_prefix (done frame : list float) (k : nat) :
  Float32Array.set (done ++ Float32Array.new (length frame + k)) frame (length done)
  = Some ((done ++ frame) ++ Float32Array.new k).
Proof.
  unfold Float32Array.set, Float32Array.new.
  rewrite decide_True by (rewrite length_app, length_replicate; lia).
  f_equal.
  rewrite replicate_add.
  replace (length done) with (length done + 0) by lia.
  rewrite list_inserts_app_r.
  rewrite list_inserts_0_r by (by rewrite length_replicate).
  by rewrite <- app_assoc.
Qed.

Lemma foldl_place (frames : list (list float)) (done : list float) :
  foldl place (Some (done ++ Float32Array.new (totalLength frames), length done)) frames
  = Some (done ++ concat frames, length done + totalLength frames).
Proof.
  revert done.
  induction frames as [|f frames IH]; intros done; simpl.
  - unfold Float32Array.new, totalLength. simpl. f_equal. f_equal. lia.
  - rewrite totalLength_cons, set_after_prefix. simpl.
    rewrite <- length_app, IH, length_app, <- app_assoc.
    f_equal. f_equal. lia.
Qed.

Lemma assemble_concat (frames : list (list float)) :
  assemble frames = Some (concat frames).
Proof.
  unfold assemble.
  pose proof (foldl_place frames []) as H. simpl in H.
  rewrite H. done.
Qed.


Example assemble_three :
  assemble [[1; 2]; []; [3]]%float = Some [1; 2; 3]%float.
Proof. reflexivity. Qed.

Example set_out_of_range :
  Float32Array.set (Float32Array.new 2) [1; 2]%float 1 = None.
Proof. reflexivity. Qed.

(** * Properties of the capture hook *)

Module CaptureFacts.
Import Capture.

Section HookFacts.

Context {Features : Type}.
Variable computeVoicePrint : list float → option (VoicePrint Features).

Local Abbreviation State := (State (Features := Features)).
Local Abbreviation finish := (finish computeVoicePrint).
Local Abbreviation run := (run computeVoicePrint).
Local Abbreviation trace := (trace computeVoicePrint).
Local Abbreviation step := (step computeVoicePrint).

(** *** Guards *)

Lemma start_while_recording (device : option float) (s : State) :
  isRecording s = true → start device s = (s, Resolved ()).
Proof. intros Hrec. unfold start. by rewrite Hrec. Qed.

Lemma finish_while_idle (s : State) :
  isRecording s = false → finish s = (s, Resolved None).
Proof. intros Hidle. unfold Capture.finish. by rewrite Hidle. Qed.

(** *** Chunks *)

Lemma onaudioprocess_frames (channelData : list float) (s : State) :
  onaudioprocess channelData s = withFrames (framesRef s ++ [channelData]) s.
Proof. reflexivity. Qed.

Lemma deliver_connected (channelData : list float) (s : State) :
  connected (browser s) ≠ ∅ →
  deliver channelData s = withFrames (framesRef s ++ [channelData]) s.
Proof. intros Hc. unfold deliver. by rewrite decide_False. Qed.

Lemma withFrames_same (s : State) : withFrames (framesRef s) s = s.
Proof. by destruct s. Qed.

Lemma run_chunks (chunks : list (list float)) (s : State) :
  connected (browser s) ≠ ∅ →
  run s (Chunk <$> chunks) = withFrames (framesRef s ++ chunks) s.
Proof.
  revert s. induction chunks as [|c chunks IH]; intros s Hc.
  - simpl. by rewrite app_nil_r, withFrames_same.
  - cbn [fmap list_fmap Capture.run foldl Capture.step fst].
    rewrite deliver_connected by done.
    unfold Capture.run in IH. rewrite IH by done.
    simpl. by rewrite <- app_assoc.
Qed.

Lemma start_granted (sampleRate : float) (s : State) :
  isRecording s = false →
  let s' := fst (start (Some sampleRate) s) in
  isRecording s' = true ∧ framesRef s' = []
  ∧ connected (browser s') ≠ ∅
  ∧ audioContextRef s' = Some {| context := S (fresh (browser s)); rate := sampleRate |}.
Proof.
  intros Hidle. unfold start. rewrite Hidle. simpl.
  repeat split. set_solver.
Qed.

(** Sample [i] of chunk [j] sits at the sum of the lengths of the chunks
    before it, plus [i]. *)
Lemma concat_lookup (chunks : list (list float)) (j i : nat)
  (frame : list float) (x : float) :
  chunks !! j = Some frame → frame !! i = Some x →
  concat chunks !! (sum_list (length <$> take j chunks) + i) = Some x.
Proof.
  revert j. induction chunks as [|c chunks IH]; intros j Hj Hi; [done|].
  destruct j as [|j]; simpl in *.
  - injection Hj as ->. by apply lookup_app_l_Some.
  - rewrite <- Nat.add_assoc, lookup_app_r by lia.
    rewrite (Nat.add_comm (length c)), Nat.add_sub.
    by apply IH.
Qed.

Lemma finish_recording (s : State) (audioContext : AudioContext)
  (voicePrint : VoicePrint Features) :
  isRecording s = true →
  audioContextRef s = Some audioContext →
  computeVoicePrint (concat (framesRef s)) = Some voicePrint →
  ∃ s', finish s =
          (s', Resolved (Some {| vector := print_vector voicePrint;
                                 features := print_features voicePrint;
                                 raw := concat (framesRef s);
                                 sampleRate := rate audioContext |}))
        ∧ isRecording s' = false.
Proof.
  intros Hrec Hctx Hprint. unfold Capture.finish.
  rewrite Hrec, Hctx, assemble_concat, Hprint. simpl. eauto.
Qed.

(** The session that [start] opens from [s0] and that then receives
    [chunks], one after the other. *)
Lemma session_state (sampleRate : float) (s0 : State) (chunks : list (list float)) :
  isRecording s0 = false →
  let s := run (fst (start (Some sampleRate) s0)) (Chunk <$> chunks) in
  isRecording s = true ∧ framesRef s = chunks
  ∧ audioContextRef s = Some {| context := S (fresh (browser s0)); rate := sampleRate |}.
Proof.
  intros Hidle.
  destruct (start_granted sampleRate s0 Hidle) as (Hrec & Hframes & Hconn & Hctx).
  cbv zeta. rewrite run_chunks by done. simpl. by rewrite Hframes.
Qed.



(** C3, as the hook has it. A second [start] while recording, and a [finish]
    while idle, are ignored: the first resolves with [undefined], the second
    with [null], no error is raised, and the state (refs, frame buffer,
    browser objects) is exactly what it was. *)
Theorem misuse_is_ignored (device : option float) (s : State) :
  (isRecording s = true → start device s = (s, Resolved ()))
  ∧ (isRecording s = false → finish s = (s, Resolved None)).
Proof.
  split; [apply start_while_recording | apply finish_while_idle].
Qed.

(** C5, as the hook has it. The callback validates nothing: every chunk it
    is handed, finite or not, is copied to the end of the buffer; the chunks
    buffered before stay, and nothing else of the state changes. *)
Theorem onaudioprocess_appends (channelData : list float) (s : State) :
  onaudioprocess channelData s = withFrames (framesRef s ++ [channelData]) s
  ∧ isRecording (onaudioprocess channelData s) = isRecording s
  ∧ (∀ k frame, framesRef s !! k = Some frame →
       framesRef (onaudioprocess channelData s) !! k = Some frame)
  ∧ framesRef (onaudioprocess channelData s) !! length (framesRef s) = Some channelData
  ∧ (connected (browser s) ≠ ∅ → deliver channelData s = onaudioprocess channelData s).
Proof.
  split; [done|]. split; [done|]. split; [|split].
  - intros k frame Hk. simpl. by apply lookup_app_l_Some.
  - simpl. by rewrite lookup_app_r, Nat.sub_diag.
  - intros Hc. unfold deliver. by rewrite decide_False.
Qed.

End HookFacts.

(** C3: after a first [start], a second one resolves and changes nothing,
    and [finish] on the idle hook resolves with [null]; neither rejects. *)
Lemma second_start_resolves :
  let recording : State (Features := unit) := fst (start (Some 48000%float) initial) in
  isRecording recording = true
  ∧ start (Some 44100%float) recording = (recording, Resolved ())
  ∧ finish echoPrint initial = (initial, Resolved None)
  ∧ snd (start (Some 44100%float) recording) ≠ Rejected
  ∧ snd (finish echoPrint initial) ≠ Rejected.
Proof. repeat split; discriminate. Qed.

Lemma misuse_is_ignored_witness :
  let recording : State (Features := unit) := fst (start (Some 48000%float) initial) in
  (isRecording recording = true ∧ isRecording (Features := unit) initial = false)
  ∧ start None recording = (recording, Resolved ())
  ∧ finish echoPrint initial = (initial, Resolved None).
Proof.
  intros recording. split; [done|]. split.
  - by apply (misuse_is_ignored echoPrint None recording).
  - by apply (misuse_is_ignored echoPrint None initial).
Defined.

(** C5: a chunk holding NaN and an infinity, delivered while recording, is
    not rejected: it is appended after the chunk already buffered. *)
Lemma non_finite_chunk_is_buffered :
  forallb is_finite [nan; infinity] = false
  ∧ isRecording oneChunk = true
  ∧ framesRef oneChunk = [[1%float; 2%float]]
  ∧ framesRef (deliver [nan; infinity] oneChunk) = [[1%float; 2%float]; [nan; infinity]].
Proof. vm_compute. done. Qed.




(** *** Cancellation *)

Section Cancellation.

Context {Features : Type}.
Variable computeVoicePrint : list float → option (VoicePrint Features).

Local Abbreviation State := (State (Features := Features)).
Local Abbreviation finish := (finish computeVoicePrint).
Local Abbreviation run := (run computeVoicePrint).
Local Abbreviation trace := (trace computeVoicePrint).
Local Abbreviation step := (step computeVoicePrint).
Local Abbreviation Async := (Async (Features := Features)).
Local Abbreviation act := (act computeVoicePrint).
Local Abbreviation perform := (perform computeVoicePrint).
Local Abbreviation observe := (observe computeVoicePrint).
Local Abbreviation reachable := (reachable computeVoicePrint).

Lemma initial_consistent : consistent (Features := Features) initial.
Proof. by repeat split. Qed.

Local Ltac sets := destruct_and?; repeat split; set_solver.

Lemma stop_consistent (s : State) : consistent s → consistent (stop s).
Proof.
  destruct s as [m p c r f l b]. unfold consistent, released. simpl.
  destruct r, c as [c|], p as [p|], m as [m|]; simpl; try done; intros H; sets.
Qed.

Lemma start_consistent (device : option float) (s : State) :
  consistent s → consistent (fst (start device s)).
Proof.
  unfold start. destruct (isRecording s) eqn:Hrec; [done|].
  destruct device as [sampleRate|]; [|done].
  destruct s as [m p c r f l b]. unfold consistent, released. simpl in *. subst r.
  destruct c as [c|], p as [p|], m as [m|]; simpl; try done; intros H; sets.
Qed.

Lemma deliver_consistent (channelData : list float) (s : State) :
  consistent s → consistent (deliver channelData s).
Proof. unfold deliver. by case_decide. Qed.

Lemma finish_consistent (s : State) : consistent s → consistent (fst (finish s)).
Proof.
  intros Hs. unfold Capture.finish.
  destruct (isRecording s) eqn:Hrec; simpl; [|done].
  destruct (audioContextRef s) as [c|] eqn:Hctx; [|by apply stop_consistent].
  destruct s as [m p c' r f l b]. simpl in *. subst r c'.
  rewrite assemble_concat.
  unfold consistent, released in *. simpl in *.
  destruct (computeVoicePrint (concat f)) as [voicePrint|]; simpl;
    destruct p as [p|], m as [m|]; simpl in *; try done; sets.
Qed.

Lemma step_consistent (s : State) (e : Event) :
  consistent s → consistent (fst (step s e)).
Proof.
  intros Hs. destruct e as [device|channelData| |]; simpl.
  - pose proof (start_consistent device s Hs) as H. by destruct (start device s).
  - by apply deliver_consistent.
  - pose proof (finish_consistent s Hs) as H. by destruct (finish s).
  - by apply stop_consistent.
Qed.

Lemma run_consistent (events : list Event) (s : State) :
  consistent s → consistent (run s events).
Proof.
  revert s. induction events as [|e events IH]; intros s Hs; [done|].
  simpl. by apply IH, step_consistent.
Qed.

(** As long as every [start] has settled before the next thing happens,
    the hook holds the objects of the current session and no other. *)
Lemma in_turn_consistent (events : list Event) : consistent (run initial events).
Proof. apply run_consistent, initial_consistent. Qed.

Lemma stop_releases (s : State) : consistent s → released (browser (stop s)).
Proof.
  intros Hs. pose proof (stop_consistent s Hs) as H.
  unfold consistent in H. by simpl in H.
Qed.

(** What callers see from an idle hook does not depend on what its frame
    buffer holds. *)
Lemma trace_forgets_frames (events : list Event) (s : State)
  (frames : list (list float)) :
  isRecording s = false →
  trace (withFrames frames s) events = trace s events.
Proof.
  revert s frames.
  induction events as [|e events IH]; intros s frames Hidle; [done|].
  destruct e as [device|channelData| |]; cbn [Capture.trace Capture.step].
  - unfold start. cbn [isRecording withFrames]. rewrite Hidle.
    destruct device as [sampleRate|]; cbn [fst snd]; f_equal.
    by apply IH.
  - cbn [fst snd]. f_equal. unfold deliver. cbn [browser withFrames].
    case_decide; [by apply IH|].
    rewrite !onaudioprocess_frames.
    change (withFrames ?a (withFrames ?b s)) with (withFrames a s).
    by rewrite !IH.
  - rewrite !finish_while_idle by done. cbn [fst snd]. f_equal. by apply IH.
  - cbn [fst snd]. f_equal.
    change (stop (withFrames frames s)) with (withFrames frames (stop s)).
    by apply IH.
Qed.

(** *** Calls that overlap *)

(** A call of [start] whose request settles at once is the guard followed
    by [resume]. *)
Lemma start_resume (device : option float) (s : State) :
  start device s
  = if isRecording s then (s, Resolved ())
    else match device with
         | None => (s, Rejected)
         | Some sampleRate => (resume sampleRate s, Resolved ())
         end.
Proof. reflexivity. Qed.

Lemma act_Do (a : Async) (e : Event) :
  act a (Do e)
  = ({| hook := fst (step (hook a) e); waiting := waiting a |}, snd (step (hook a) e)).
Proof. cbn [Capture.act]. by destruct (step (hook a) e). Qed.

Lemma perform_Do (events : list Event) (a : Async) :
  perform a (Do <$> events) = {| hook := run (hook a) events; waiting := waiting a |}.
Proof.
  revert a. induction events as [|e events IH]; intros a; [by destruct a|].
  cbn [fmap list_fmap Capture.perform foldl]. rewrite act_Do. cbn [fst].
  unfold Capture.perform in IH. by rewrite IH.
Qed.

(** Histories in which every call settles at once are among those the hook
    can go through. *)
Lemma reachable_in_turn (events : list Event) : reachable (run initial events).
Proof. exists (Do <$> events). by rewrite perform_Do. Qed.

(** One event on an idle hook: what the caller sees does not depend on the
    frame buffer, and afterwards the hook is idle with some buffer or other,
    or it is recording with a buffer that was emptied. *)
Lemma step_forgets_frames (e : Event) (s : State) (frames : list (list float)) :
  isRecording s = false →
  snd (step (withFrames frames s) e) = snd (step s e)
  ∧ (fst (step (withFrames frames s) e) = fst (step s e)
     ∨ isRecording (fst (step s e)) = false
       ∧ ∃ frames', fst (step (withFrames frames s) e)
                    = withFrames frames' (fst (step s e))).
Proof.
  intros Hidle. destruct e as [device|channelData| |]; cbn [Capture.step].
  - rewrite !start_resume. cbn [isRecording withFrames]. rewrite Hidle.
    destruct device as [sampleRate|]; cbn [fst snd].
    + split; [done|]. by left.
    + split; [done|]. right. split; [done|]. by exists frames.
  - cbn [fst snd]. split; [done|]. right. unfold deliver. cbn [browser withFrames].
    case_decide; [split; [done|]; by exists frames|].
    split; [done|]. by exists (frames ++ [Float32Array.copy channelData]).
  - rewrite !finish_while_idle by done. cbn [fst snd].
    split; [done|]. right. split; [done|]. by exists frames.
  - cbn [fst snd]. split; [done|]. right. split; [done|]. by exists frames.
Qed.

(** What callers see from an idle hook does not depend on what its frame
    buffer holds, also when calls of [start] overlap. *)
Lemma observe_forgets_frames (actions : list Action) (a : Async)
  (frames : list (list float)) :
  isRecording (hook a) = false →
  observe {| hook := withFrames frames (hook a); waiting := waiting a |} actions
  = observe a actions.
Proof.
  revert a frames.
  induction actions as [|x actions IH]; intros [s n] frames Hidle; [done|].
  cbn [hook waiting] in *.
  destruct x as [|device|e]; cbn [Capture.observe].
  - cbn [Capture.act hook waiting isRecording withFrames]. rewrite Hidle.
    cbn [fst snd]. f_equal.
    exact (IH {| hook := s; waiting := S n |} frames Hidle).
  - cbn [Capture.act hook waiting].
    destruct n as [|n]; cbn [fst snd].
    + f_equal. exact (IH {| hook := s; waiting := 0 |} frames Hidle).
    + destruct device as [sampleRate|]; cbn [fst snd]; f_equal.
      exact (IH {| hook := s; waiting := n |} frames Hidle).
  - rewrite !act_Do. cbn [hook waiting fst snd].
    destruct (step_forgets_frames e s frames Hidle) as [Hseen [Hsame | [Hidle' [frames' Hnext]]]].
    + by rewrite Hseen, Hsame.
    + rewrite Hseen, Hnext. f_equal.
      exact (IH {| hook := fst (step s e); waiting := n |} frames' Hidle').
Qed.

(** *** Objects no ref names *)

Local Ltac orphan :=
  unfold orphaned; cbn [mediaStreamRef processorRef audioContextRef browser
    liveStreams openContexts connected fresh context stop resume
    disconnect stopTracks close];
  intros ((Hm & Hc & Hp) & (Hrm & Hrc & Hrp) & (Hfm & Hfc & Hfp));
  repeat split; try done; try lia; try set_solver.

Lemma resume_orphaned (m c p : nat) (sampleRate : float) (s : State) :
  orphaned m c p s → orphaned m c p (resume sampleRate s).
Proof.
  destruct s as [sm sp sc r f l [ls oc cn fr]]. orphan.
  - intros [=]. lia.
  - intros audioContext [= <-]. cbn [context]. lia.
  - intros [=]. lia.
Qed.

Lemma stop_orphaned (m c p : nat) (s : State) :
  orphaned m c p s → orphaned m c p (stop s).
Proof.
  destruct s as [[sm|] [sp|] [sc|] r f l [ls oc cn fr]]; orphan;
    try (specialize (Hrc _ eq_refl)); set_solver.
Qed.

Lemma finish_orphaned (m c p : nat) (s : State) :
  orphaned m c p s → orphaned m c p (fst (finish s)).
Proof.
  intros Hs. unfold Capture.finish.
  destruct (isRecording s) eqn:Hrec; cbn [negb]; [|done].
  destruct (audioContextRef s) as [audioContext|] eqn:Hctx;
    [|by apply stop_orphaned].
  rewrite assemble_concat.
  destruct s as [[sm|] [sp|] sc r f l [ls oc cn fr]];
    cbn [audioContextRef framesRef] in *; subst sc;
    destruct (computeVoicePrint (concat f)) as [voicePrint|]; cbn [fst];
    revert Hs; orphan; try (specialize (Hrc _ eq_refl)); set_solver.
Qed.

Lemma step_orphaned (m c p : nat) (s : State) (e : Event) :
  orphaned m c p s → orphaned m c p (fst (step s e)).
Proof.
  intros Hs. destruct e as [device|channelData| |]; cbn [Capture.step].
  - rewrite start_resume. destruct (isRecording s); [done|].
    destruct device as [sampleRate|]; [|done]. by apply resume_orphaned.
  - cbn [fst]. unfold deliver. by case_decide.
  - pose proof (finish_orphaned m c p s Hs) as H. by destruct (finish s).
  - by apply stop_orphaned.
Qed.

Lemma act_orphaned (m c p : nat) (a : Async) (x : Action) :
  orphaned m c p (hook a) → orphaned m c p (hook (fst (act a x))).
Proof.
  intros Ha. destruct x as [|device|e].
  - cbn [Capture.act]. by destruct (isRecording (hook a)).
  - cbn [Capture.act]. destruct (waiting a); [done|].
    destruct device as [sampleRate|]; [|done]. by apply resume_orphaned.
  - rewrite act_Do. by apply step_orphaned.
Qed.

(** Nothing the hook does later releases them. *)
Lemma perform_orphaned (m c p : nat) (actions : list Action) (a : Async) :
  orphaned m c p (hook a) → orphaned m c p (hook (perform a actions)).
Proof.
  revert a. induction actions as [|x actions IH]; intros a Ha; [done|].
  cbn [Capture.perform foldl]. by apply IH, act_orphaned.
Qed.

(** A second [resume] takes the refs from the objects of the first. *)
Lemma resume_twice_orphans (r1 r2 : float) (s : State) :
  let m := fresh (browser s) in
  orphaned m (S m) (S (S m)) (resume r2 (resume r1 s)).
Proof.
  destruct s as [sm sp sc r f l [ls oc cn fr]].
  unfold orphaned, resume. cbn.
  repeat split; try lia; try set_solver.
  - intros [=]. lia.
  - intros audioContext [= <-]. cbn [context]. lia.
  - intros [=]. lia.
Qed.



(** Two calls of [start] on an idle hook, the second made before the
    microphone was granted to the first, both pass the guard and both open a
    session.  The refs name the objects of the second; the stream, the audio
    context and the script processor of the first stay alive whatever the
    hook does afterwards: no [stop] and no [finish] releases them. *)
Theorem overlapping_starts_leak (a : Async) (r1 r2 : float) (actions : list Action) :
  isRecording (hook a) = false →
  let m := fresh (browser (hook a)) in
  let b := perform a [Request; Request; Settle (Some r1); Settle (Some r2)] in
  let c := perform b actions in
  (hook b = resume r2 (resume r1 (hook a))
   ∧ waiting b = waiting a
   ∧ isRecording (hook b) = true
   ∧ mediaStreamRef (hook b) = Some (S (S (S m))))
  ∧ (m ∈ liveStreams (browser (hook c))
     ∧ S m ∈ openContexts (browser (hook c))
     ∧ S (S m) ∈ connected (browser (hook c)))
  ∧ (∀ history, a = perform mounted history → reachable (hook c)).
Proof.
  intros Hidle m b c.
  assert (Hb : b = {| hook := resume r2 (resume r1 (hook a)); waiting := waiting a |}).
  { subst b. unfold Capture.perform. cbn [foldl Capture.act fst hook waiting].
    rewrite Hidle. cbn [fst hook waiting]. rewrite Hidle. by cbn. }
  split; [by rewrite Hb|]. split.
  - pose proof (resume_twice_orphans r1 r2 (hook a)) as Horphan. cbv zeta in Horphan.
    fold m in Horphan.
    assert (Hc : orphaned m (S m) (S (S m)) (hook c)).
    { subst c. apply perform_orphaned. by rewrite Hb. }
    by destruct Hc as (Hlive & _).
  - intros history ->.
    exists (history ++ [Request; Request; Settle (Some r1); Settle (Some r2)] ++ actions).
    subst c b. unfold Capture.perform. by rewrite !foldl_app.
Qed.

End Cancellation.




Lemma overlapping_starts_leak_witness :
  let leaked :=
    hook (perform echoPrint mounted
            ([Request; Request; Settle (Some 48000%float); Settle (Some 44100%float)]
             ++ [Do Stop; Do Finish])) in
  isRecording (Features := unit) (hook mounted) = false
  ∧ isRecording leaked = false
  ∧ mediaStreamRef leaked = None
  ∧ 0 ∈ liveStreams (browser leaked)
  ∧ reachable echoPrint leaked.
Proof.
  intros leaked.
  destruct (overlapping_starts_leak echoPrint mounted 48000%float 44100%float
              [Do Stop; Do Finish] eq_refl)
    as (_ & (Hlive & _) & Hreach).
  split; [done|]. split; [done|]. split; [done|]. split; [exact Hlive|].
  exact (Hreach [] eq_refl).
Defined.

End CaptureFacts.

(** * Properties of histories of the capture hook *)

Module SessionsFacts.
Import Capture Sessions CaptureFacts.

Section HistoryFacts.

Context {Features : Type}.
Variable computeVoicePrint : list float → option (VoicePrint Features).

Local Abbreviation State := (State (Features := Features)).
Local Abbreviation finish := (finish computeVoicePrint).
Local Abbreviation run := (run computeVoicePrint).
Local Abbreviation trace := (trace computeVoicePrint).
Local Abbreviation step := (step computeVoicePrint).

Lemma start_lastResult (device : option float) (s : State) :
  lastResult (fst (start device s)) = lastResult s.
Proof. unfold start. by destruct (isRecording s), device. Qed.

Lemma deliver_lastResult (channelData : list float) (s : State) :
  lastResult (deliver channelData s) = lastResult s.
Proof. unfold deliver. by case_decide. Qed.

Lemma finish_lastResult (s : State) :
  match snd (finish s) with
  | Resolved (Some payload) => lastResult (fst (finish s)) = Some payload
  | _ => lastResult (fst (finish s)) = lastResult s
  end.
Proof.
  unfold Capture.finish. destruct (isRecording s); simpl; [|done].
  destruct (audioContextRef s); [|done].
  destruct (assemble (framesRef s)); [|done].
  by destruct (computeVoicePrint _).
Qed.

(** Through any history of calls and chunks, [lastResult] is the payload
    of the most recent [finish] that resolved with one, and what it was
    before when there was none: [start], [stop], chunks, and a [finish] that
    resolves with [null] or rejects never change it. *)
Theorem lastResult_is_last_payload (events : list Event) (s : State) :
  lastResult (run s events)
  = match lastPayload (trace s events) with
    | Some payload => Some payload
    | None => lastResult s
    end.
Proof.
  revert s. induction events as [|e events IH]; intros s; [done|].
  change (run s (e :: events)) with (run (fst (step s e)) events).
  cbn [Capture.trace]. rewrite IH.
  destruct e as [device|channelData| |]; cbn [Capture.step].
  - destruct (start device s) as [s' o] eqn:Hstart. cbn [fst snd lastPayload].
    destruct (lastPayload _); [done|].
    by rewrite <- (start_lastResult device s), Hstart.
  - cbn [fst snd lastPayload]. destruct (lastPayload _); [done|].
    apply deliver_lastResult.
  - pose proof (finish_lastResult s) as Hfin.
    destruct (finish s) as [s' o]. cbn [fst snd] in *.
    destruct o as [[payload|]|]; cbn [lastPayload];
      by destruct (lastPayload _).
  - cbn [fst snd lastPayload]. by destruct (lastPayload _).
Qed.

Lemma chunksOf_cons (e : Event) (events : list Event) :
  chunksOf (e :: events) = chunksOf [e] ++ chunksOf events.
Proof. by destruct e. Qed.

Lemma recording_step (s : State) (e : Event) :
  isRecording s = true → connected (browser s) ≠ ∅ → recordingEvent e = true →
  fst (step s e) = withFrames (framesRef s ++ chunksOf [e]) s.
Proof.
  intros Hrec Hconn He. destruct e as [device|channelData| |]; try done.
  - cbn [Capture.step]. rewrite start_while_recording by done.
    simpl. by rewrite app_nil_r, withFrames_same.
  - cbn [Capture.step fst]. by rewrite deliver_connected.
Qed.


End HistoryFacts.


End SessionsFacts.

(** * Properties of the two handlers *)

Module SchemaFacts.

Lemma number_finite (infinities : bool) (x : float) :
  is_finite x = true → z.number infinities (JNumber x) = Some x.
Proof. intros Hx. unfold z.number. by rewrite Hx. Qed.

(** An array of finite numbers, of any length, passes
    [z.array(z.number())] as it is. *)
Lemma array_of_numbers (infinities : bool) (v : list float) :
  Forall (λ x, is_finite x = true) v →
  z.array (z.number infinities) (Some (JArray (JNumber <$> v))) = Some v.
Proof.
  intros Hv. unfold z.array. induction Hv as [|x v Hx Hv IH]; [done|].
  cbn [fmap list_fmap mapM].
  pose proof (number_finite infinities x Hx) as Hn.
  rewrite Hn.
  by rewrite IH.
Qed.

Lemma default_of_optional (d : string) (v : option Json) (o : option string) :
  z.optional z.string v = Some o →
  z.default d z.string v = Some (default d o).
Proof.
  unfold z.optional, z.default. destruct v as [j|]; [|by intros [= <-]].
  destruct (z.string (Some j)) as [s|]; [|done]. by intros [= <-].
Qed.

Lemma member_object (key : string) (request v : Json) :
  member key request = Some v → ∃ members, request = JObject members.
Proof. destruct request; try done. eauto. Qed.

End SchemaFacts.

Module RegisterFacts.
Import Register SchemaFacts Samples.

Section HandlerFacts.

Variable infinities : bool.
Variable message : Json → string.
Variable storeVoiceProfile : Data → Db → option VoiceProfile * Db.

Local Abbreviation POST := (POST infinities message storeVoiceProfile).
Local Abbreviation schema := (schema infinities).

Lemma findUnique_known (id : string) (db : Db) :
  id ∈ contacts db → findUnique id db = true.
Proof. intros Hin. unfold findUnique. by apply bool_decide_eq_true. Qed.

Lemma findUnique_unknown (id : string) (db : Db) :
  id ∉ contacts db → findUnique id db = false.
Proof. intros Hin. unfold findUnique. by apply bool_decide_eq_false. Qed.

(** C9. A request that names no known contact is answered with 404
    "Contact not found"; [storeVoiceProfile] is not called and the database
    is what it was.  For a known contact the answer is the profile
    [storeVoiceProfile] stored. *)
Theorem register_requires_contact (request : Json) (db : Db) (data : Data) :
  schema request = Some data →
  (contactId data ∉ contacts db →
     POST request db = ({| status := 404; body := Error "Contact not found" |}, db))
  ∧ (contactId data ∈ contacts db →
     ∀ profile db', storeVoiceProfile data db = (Some profile, db') →
       POST request db = ({| status := 200; body := Payload profile |}, db')).
Proof.
  intros Hparse. unfold Register.POST. rewrite Hparse. split.
  - intros Hunknown. by rewrite findUnique_unknown.
  - intros Hknown profile db' Hstore. by rewrite findUnique_known, Hstore.
Qed.

(** A request the schema refuses stores nothing either. *)
Lemma register_invalid (request : Json) (db : Db) :
  schema request = None →
  POST request db = ({| status := 400; body := Error (message request) |}, db).
Proof. intros Hparse. unfold Register.POST. by rewrite Hparse. Qed.

(** C10. For a known contact the handler compares the vector with nothing:
    whatever its length (zero included), and whatever profile the contact
    already has, an array of finite numbers passes the schema unchanged and
    is handed to [storeVoiceProfile], whose answer is the response; a request
    without [modelVersion] is handed on with ["mfcc-v1"]. *)
Theorem register_takes_any_vector (request : Json) (db : Db)
  (id : string) (v : list float) (url version : option string) :
  member "contactId" request = Some (JString id) →
  member "vector" request = Some (JArray (JNumber <$> v)) →
  Forall (λ x, is_finite x = true) v →
  z.optional z.string (member "recordingUrl" request) = Some url →
  z.optional z.string (member "modelVersion" request) = Some version →
  id ∈ contacts db →
  let data := {| contactId := id; vector := v; recordingUrl := url;
                 modelVersion := default "mfcc-v1"%string version |} in
  schema request = Some data
  ∧ POST request db =
      match storeVoiceProfile data db with
      | (Some profile, db') => ({| status := 200; body := Payload profile |}, db')
      | (None, db') =>
          ({| status := 500; body := Error "Failed to register voice profile" |}, db')
      end.
Proof.
  intros Hid Hvec Hfin Hurl Hver Hknown data.
  assert (Hparse : schema request = Some data).
  { destruct (member_object _ _ _ Hid) as [members ->].
    unfold Register.schema.
    rewrite Hid, Hvec, Hurl, array_of_numbers by done.
    by rewrite (default_of_optional _ _ version). }
  split; [done|].
  unfold Register.POST. rewrite Hparse. simpl. by rewrite findUnique_known.
Qed.

End HandlerFacts.

(** With the Profile Store of the spec behind the handler, the profile of
    the contact afterwards is the vector and tag of the request. *)
Lemma register_save (infinities : bool) (message : Json → string) (now : nat)
  (request : Json) (db : Db)
  (id : string) (v : list float) (url version : option string) :
  member "contactId" request = Some (JString id) →
  member "vector" request = Some (JArray (JNumber <$> v)) →
  Forall (λ x, is_finite x = true) v →
  z.optional z.string (member "recordingUrl" request) = Some url →
  z.optional z.string (member "modelVersion" request) = Some version →
  id ∈ contacts db →
  let profile := {| identityId := id; profileVector := v;
                    profileVersion := default "mfcc-v1"%string version;
                    createdAt := now |} in
  let '(response, db') := POST infinities message (save now) request db in
  response = {| status := 200; body := Payload profile |}
  ∧ voiceProfiles db' !! id = Some profile.
Proof.
  intros Hid Hvec Hfin Hurl Hver Hknown profile.
  destruct (register_takes_any_vector infinities message (save now)
              request db id v url version Hid Hvec Hfin Hurl Hver Hknown)
    as [_ ->].
  simpl. split; [done|]. by rewrite lookup_insert_eq.
Qed.

Lemma register_requires_contact_witness :
  let request := JObject [("contactId"%string, JString "nobody");
                          ("vector"%string, JArray [JNumber 1%float])] in
  schema false request
  = Some {| contactId := "nobody"; vector := [1%float]; recordingUrl := None;
            modelVersion := "mfcc-v1" |}
  ∧ POST false noMessage (save 7) request oneContact
    = ({| status := 404; body := Error "Contact not found" |}, oneContact).
Proof.
  intros request. split; [done|].
  refine (proj1 (register_requires_contact false noMessage (save 7)
                   request oneContact _ eq_refl) _).
  simpl. set_solver.
Defined.

Lemma register_takes_any_vector_witness :
  let request := JObject [("contactId"%string, JString "c1");
                          ("vector"%string, JArray [])] in
  "c1"%string ∈ contacts oneContact
  ∧ POST false noMessage (save 7) request oneContact
    = ({| status := 200;
          body := Payload {| identityId := "c1"; profileVector := [];
                             profileVersion := "mfcc-v1"; createdAt := 7 |} |},
       snd (save 7 {| contactId := "c1"; vector := []; recordingUrl := None;
                      modelVersion := "mfcc-v1" |} oneContact)).
Proof.
  intros request.
  assert (Hknown : "c1"%string ∈ contacts oneContact) by (simpl; set_solver).
  split; [exact Hknown|].
  exact (proj2 (register_takes_any_vector false noMessage (save 7)
                  request oneContact "c1" [] None None
                  eq_refl eq_refl (Forall_nil_2 _) eq_refl eq_refl Hknown)).
Defined.

End RegisterFacts.

Module VerifyFacts.
Import Verify Samples.

(** *** Comparisons of binary64 numbers

    [<?] and [<=?] on [float] are the comparisons of IEEE 754; their
    specification is in terms of [SpecFloat.SFcompare]. *)

Lemma SFcompare_antisym (f1 f2 : SpecFloat.spec_float) :
  SpecFloat.SFcompare f2 f1 = CompOpp <$> SpecFloat.SFcompare f1 f2.
Proof.
  destruct f1 as [s1|s1| |s1 m1 e1], f2 as [s2|s2| |s2 m2 e2]; simpl; try done;
    try (by destruct s1); try (by destruct s2); try (by destruct s1, s2).
  destruct s1, s2; simpl; try done; f_equal;
    rewrite (Z.compare_antisym e1 e2); destruct (e1 ?= e2)%Z; simpl; try done;
    pose proof (Pos.compare_cont_antisym m1 m2 Eq) as H; simpl in H;
    rewrite <- H; by rewrite ?CompOpp_involutive.
Qed.

Lemma SFcompare_Some (f1 f2 : SpecFloat.spec_float) :
  f1 ≠ SpecFloat.S754_nan → f2 ≠ SpecFloat.S754_nan →
  is_Some (SpecFloat.SFcompare f1 f2).
Proof. destruct f1, f2; simpl; try done; eauto. Qed.

Lemma not_nan_spec (x : float) :
  is_nan x = false → FloatOps.Prim2SF x ≠ SpecFloat.S754_nan.
Proof.
  unfold is_nan. rewrite FloatAxioms.eqb_spec. intros H Hx. by rewrite Hx in H.
Qed.

(** On numbers, [x < y] fails exactly when [y <= x] holds. *)
Lemma ltb_false_leb (x y : float) :
  is_nan x = false → is_nan y = false →
  (x <? y)%float = false → (y <=? x)%float = true.
Proof.
  intros Hx%not_nan_spec Hy%not_nan_spec.
  rewrite FloatAxioms.ltb_spec, FloatAxioms.leb_spec.
  unfold SpecFloat.SFltb, SpecFloat.SFleb.
  rewrite (SFcompare_antisym (FloatOps.Prim2SF x) (FloatOps.Prim2SF y)).
  destruct (SFcompare_Some _ _ Hx Hy) as [c ->]. by destruct c.
Qed.

Lemma finite_not_nan (x : float) : is_finite x = true → is_nan x = false.
Proof. unfold is_finite. by destruct (is_nan x). Qed.

(** *** The clamp *)

Lemma clamp_range (x : float) :
  is_nan x = false →
  (-1 <=? clamp x)%float = true ∧ (clamp x <=? 1)%float = true.
Proof.
  intros Hx. unfold clamp.
  destruct (x <? -1)%float eqn:Hlo; [done|].
  destruct (1 <? x)%float eqn:Hhi; [done|].
  split; by apply ltb_false_leb.
Qed.

(** *** The dot product *)

(** The loop over the indices: [acc += u[i] * v[i]] for [i] from [0]. *)
Lemma dot_indices (u v : list float) :
  length u = length v →
  dot u v
  = foldl (λ acc i, acc + nth i u 0 * nth i v 0)%float 0%float (seq 0 (length u)).
Proof.
  intros Hlen. unfold dot. generalize 0%float at 1 4 as acc. revert v Hlen.
  induction u as [|x u IH]; intros [|y v] Hlen acc; try done.
  injection Hlen as Hlen. cbn [zip zip_with foldl length seq fst snd nth].
  by rewrite (IH v Hlen), <- fmap_S_seq, foldl_fmap.
Qed.

Section HandlerFacts.

Variable infinities : bool.
Variable message : Json → string.

Local Abbreviation POST := (POST infinities message verifyVoiceProfile).
Local Abbreviation schema := (schema infinities).

(** The handler answers a well-formed request with what
    [verifyVoiceProfile] resolved with, and with 500 when it threw. *)
Lemma POST_passes_through (request : Json) (db : Db) (data : Data) :
  schema request = Some data →
  POST request db =
    match verifyVoiceProfile data db with
    | inr result => {| status := 200; body := Payload result |}
    | inl _ => {| status := 500; body := Error "Failed to verify voice profile" |}
    end.
Proof. intros Hparse. unfold Verify.POST. by rewrite Hparse. Qed.


(** C2. For vectors of different lengths [verify] fails with
    [VectorDimensionMismatchError]: it returns no result, so no similarity,
    and in particular not the one of the vectors cut to a common length.
    The handler answers 500 without a score. *)
Theorem verify_rejects_mismatch (candidateVector : list float)
  (storedProfile : VoiceProfile) (requested : option float) :
  length candidateVector ≠ length (profileVector storedProfile) →
  verify candidateVector storedProfile requested = inl VectorDimensionMismatchError
  ∧ (∀ result, verify candidateVector storedProfile requested ≠ inr result)
  ∧ (∀ request db data,
       schema request = Some data →
       vector data = candidateVector →
       Verify.requested data = requested →
       voiceProfiles db !! contactId data = Some storedProfile →
       POST request db
       = {| status := 500; body := Error "Failed to verify voice profile" |}).
Proof.
  intros Hlen.
  assert (Hverify : verify candidateVector storedProfile requested
                    = inl VectorDimensionMismatchError).
  { unfold verify. by rewrite decide_False. }
  split; [done|]. split; [by rewrite Hverify|].
  intros request db data Hparse Hvec Hreq Hload.
  rewrite (POST_passes_through request db data Hparse).
  unfold verifyVoiceProfile. by rewrite Hload, Hvec, Hreq, Hverify.
Qed.

End HandlerFacts.

Section AnyVerifier.

Variable infinities : bool.
Variable message : Json → string.
Context {Thrown : Type}.
Variable verifyVoiceProfile : Data → Db → Thrown + VerificationResult.

(** A request whose [threshold] is a number outside [0, 1] is answered 400;
    [verifyVoiceProfile] is not called. *)
Theorem threshold_out_of_range (request : Json) (db : Db) (x : float) :
  member "threshold" request = Some (JNumber x) →
  (0 <=? x)%float && (x <=? 1)%float = false →
  POST infinities message verifyVoiceProfile request db
  = {| status := 400; body := Error (message request) |}.
Proof.
  intros Hmember Hrange.
  assert (Hparse : schema infinities request = None).
  { unfold schema. destruct request; try done.
    destruct (z.string _); [|done].
    destruct (z.array _ _); [|done].
    rewrite Hmember. unfold z.optional, z.numberBetween, z.number. simpl.
    destruct (is_finite x || infinities && negb (is_nan x)); [|done].
    simpl. by rewrite Hrange. }
  unfold POST. by rewrite Hparse.
Qed.

End AnyVerifier.

(** A vector against itself: similarity 1, accepted at the default
    threshold. *)
Example verify_same_vector :
  verify [1; 2; 3]%float (stored [1; 2; 3]%float) None
  = inr {| similarity := 1%float; threshold := 0.85%float; verified := true |}.
Proof. reflexivity. Qed.

(** Orthogonal vectors: similarity 0, refused at threshold 0.5. *)
Example verify_orthogonal :
  verify [1; 0]%float (stored [0; 1]%float) (Some 0.5%float)
  = inr {| similarity := 0%float; threshold := 0.5%float; verified := false |}.
Proof. reflexivity. Qed.

(** Opposite vectors: similarity -1. *)
Example verify_opposite :
  verify [3; 4]%float (stored [-3; -4]%float) (Some 0%float)
  = inr {| similarity := (-1)%float; threshold := 0%float; verified := false |}.
Proof. reflexivity. Qed.

Example clamp_above : clamp 1.0000000000000002%float = 1%float.
Proof. reflexivity. Qed.

Example clamp_below : clamp (-1.5)%float = (-1)%float.
Proof. reflexivity. Qed.

Example verify_mismatch :
  verify [1; 2]%float (stored [1; 2; 3]%float) None = inl VectorDimensionMismatchError.
Proof. reflexivity. Qed.

(** Vectors at an angle: similarity 0.96, accepted at the default
    threshold. *)
Example verify_close :
  verify [3; 4]%float (stored [4; 3]%float) None
  = inr {| similarity := 0.96%float; threshold := 0.85%float; verified := true |}.
Proof. reflexivity. Qed.

(** Drift above 1 is absorbed. *)
Example verify_drift :
  cosineSimilarity [1; 1; 1]%float [1; 1; 1]%float = 1.0000000000000002%float
  ∧ verify [1; 1; 1]%float (stored [1; 1; 1]%float) None
    = inr {| similarity := 1%float; threshold := 0.85%float; verified := true |}.
Proof. split; reflexivity. Qed.



Lemma verify_rejects_mismatch_witness :
  length [1; 2]%float ≠ length (profileVector (stored [1; 2; 3]%float))
  ∧ verify [1; 2]%float (stored [1; 2; 3]%float) None
    = inl VectorDimensionMismatchError.
Proof.
  assert (Hlen : length [1; 2]%float ≠ length (profileVector (stored [1; 2; 3]%float)))
    by (simpl; lia).
  split; [exact Hlen|].
  exact (proj1 (verify_rejects_mismatch false (λ _, "invalid"%string)
                  [1; 2]%float (stored [1; 2; 3]%float) None Hlen)).
Defined.

Lemma threshold_out_of_range_witness :
  let request := JObject [("contactId"%string, JString "c1");
                          ("vector"%string, JArray [JNumber 1%float]);
                          ("threshold"%string, JNumber 1.5%float)] in
  (0 <=? 1.5)%float && (1.5 <=? 1)%float = false
  ∧ POST false noMessage verifyVoiceProfile request oneContact
    = {| status := 400; body := Error "invalid" |}.
Proof.
  intros request. split; [done|].
  exact (threshold_out_of_range false noMessage verifyVoiceProfile
           request oneContact 1.5%float eq_refl eq_refl).
Defined.

End VerifyFacts.

(** * Properties of the dashboard's voice handlers *)

Module DashboardFacts.
Import Dashboard SchemaFacts.

Lemma normalise_finite (x : float) :
  is_finite x = true → is_finite (normalise x) = true.
Proof. intros Hx. unfold normalise. by destruct (is_zero x). Qed.

(** A vector of finite numbers arrives as the same numbers, [-0] as [0]. *)
Lemma wire_finite (infinities : bool) (v : list float) :
  Forall (λ x, is_finite x = true) v →
  z.array (z.number infinities) (Some (JArray (wireNumber <$> v)))
  = Some (normalise <$> v).
Proof.
  intros Hv. unfold z.array. apply mapM_Some, Forall2_fmap, Forall2_same_length_lookup.
  split; [done|]. intros i x y Hx Hy. rewrite Hx in Hy. injection Hy as <-.
  assert (Hfin : is_finite x = true)
    by (eapply (proj1 (Forall_lookup _ _) Hv); eauto).
  unfold wireNumber, received. rewrite Hfin.
  apply number_finite, normalise_finite, Hfin.
Qed.

(** A vector with a NaN or an infinity arrives with a [null] in it, which is
    no number. *)
Lemma wire_not_finite (infinities : bool) (v : list float) :
  Exists (λ x, is_finite x = false) v →
  z.array (z.number infinities) (Some (JArray (wireNumber <$> v))) = None.
Proof.
  intros Hv. unfold z.array. apply mapM_None, Exists_fmap.
  eapply Exists_impl; [exact Hv|]. intros x Hx. simpl.
  unfold wireNumber, received. by rewrite Hx.
Qed.

Section HandlerFacts.

Context {Features : Type}.
Variable infinities : bool.
Variable message : Json → string.

Local Abbreviation Sample := (Capture.VoiceCaptureResult Features).

Lemma enrollment_schema (contactId : string) (lastResult : Sample) :
  Register.schema infinities (enrollmentRequest contactId lastResult)
  = vector ← z.array (z.number infinities)
               (Some (JArray (wireNumber <$> Capture.vector lastResult)));
    Some {| Register.contactId := contactId; Register.vector := vector;
            Register.recordingUrl := None;
            Register.modelVersion := "atlas-mfcc-v1" |}.
Proof. reflexivity. Qed.

Lemma verification_schema (contactId : string) (lastResult : Sample) :
  Verify.schema infinities (verificationRequest contactId lastResult)
  = vector ← z.array (z.number infinities)
               (Some (JArray (wireNumber <$> Capture.vector lastResult)));
    Some {| Verify.contactId := contactId; Verify.vector := vector;
            Verify.requested := None |}.
Proof. reflexivity. Qed.

Section Enrollment.

Variable storeVoiceProfile : Register.Data → Db → option VoiceProfile * Db.

Local Abbreviation handleVoiceEnrollment :=
  (handleVoiceEnrollment (Features := Features) infinities message storeVoiceProfile).

(** A captured voice print with a NaN or an infinity among its components
    cannot be enrolled from the dashboard: [JSON.stringify] writes that
    component as [null], the schema of the register handler refuses the
    request with 400, [storeVoiceProfile] is never reached, the database is
    what it was, and the panel shows the schema's message.  With no captured
    sample at all nothing is sent. *)
Theorem enrollment_refuses_non_finite (contactId : string) (s : State) (db : Db) :
  handleVoiceEnrollment None contactId s db
  = (setVoiceEnrollmentStatus "Capture a voice sample first." s, db)
  ∧ ∀ lastResult : Sample,
      Exists (λ x, is_finite x = false) (Capture.vector lastResult) →
      Register.POST infinities message storeVoiceProfile
        (enrollmentRequest contactId lastResult) db
      = ({| status := 400;
            body := Error (message (enrollmentRequest contactId lastResult)) |}, db)
      ∧ handleVoiceEnrollment (Some lastResult) contactId s db
        = (setVoiceEnrollmentStatus
             (message (enrollmentRequest contactId lastResult)) s, db).
Proof.
  split; [done|]. intros lastResult Hbad.
  assert (Hparse : Register.schema infinities (enrollmentRequest contactId lastResult)
                   = None)
    by (by rewrite enrollment_schema, wire_not_finite).
  unfold Dashboard.handleVoiceEnrollment, Register.POST. by rewrite Hparse.
Qed.

(** Enrolling a captured voice print whose components are all finite: for
    a contact the database does not know the panel shows "Contact not found"
    and nothing is stored; for a known contact [storeVoiceProfile] receives
    the contact, the vector as captured ([-0] read as [0]), no recording URL
    and the tag ["atlas-mfcc-v1"] (never the handler's default), and the
    panel shows success, or the failure text when the call throws. *)
Theorem enrollment_end_to_end (lastResult : Sample) (contactId : string)
  (s : State) (db : Db) :
  Forall (λ x, is_finite x = true) (Capture.vector lastResult) →
  let data := {| Register.contactId := contactId;
                 Register.vector := normalise <$> Capture.vector lastResult;
                 Register.recordingUrl := None;
                 Register.modelVersion := "atlas-mfcc-v1" |} in
  handleVoiceEnrollment (Some lastResult) contactId s db
  = if bool_decide (contactId ∈ contacts db) then
      match storeVoiceProfile data db with
      | (Some _, db') =>
          (setVoiceEnrollmentStatus "Voice profile enrolled successfully." s, db')
      | (None, db') =>
          (setVoiceEnrollmentStatus "Failed to register voice profile" s, db')
      end
    else (setVoiceEnrollmentStatus "Contact not found" s, db).
Proof.
  intros Hfin data.
  assert (Hparse : Register.schema infinities (enrollmentRequest contactId lastResult)
                   = Some data)
    by (by rewrite enrollment_schema, wire_finite).
  unfold Dashboard.handleVoiceEnrollment, Register.POST. rewrite Hparse.
  unfold findUnique. simpl. case_bool_decide; [|done].
  by destruct (storeVoiceProfile data db) as [[profile|] db'].
Qed.

End Enrollment.

Section Verification.

Context {Thrown : Type}.
Variable verifyVoiceProfile : Verify.Data → Db → Thrown + Verify.VerificationResult.
Variable toFixed : nat → float → string.

Local Abbreviation handleVoiceVerification :=
  (handleVoiceVerification (Features := Features) infinities message verifyVoiceProfile).
Local Abbreviation verificationPanel := (verificationPanel toFixed).

(** Verifying from the dashboard never names a threshold: for a captured
    voice print with finite components [verifyVoiceProfile] receives the
    contact, the vector as captured and no threshold.  Its result goes into
    the [voiceVerification] cell, a similarity or threshold that is not
    finite as [null].  The page then renders the card: "voice matched" or
    "voice mismatch" by the [verified] field, the similarity to three digits
    and the threshold to two, when both are finite; when one of them arrived
    as [null], rendering throws.  When [verifyVoiceProfile] throws, the
    status line shows the failure text and the card is what it was.  A voice
    print with a NaN or an infinity is refused by the schema and
    [verifyVoiceProfile] is not called. *)
Theorem verification_end_to_end (lastResult : Sample) (contactId : string)
  (s : State) (db : Db) :
  (Forall (λ x, is_finite x = true) (Capture.vector lastResult) →
   let data := {| Verify.contactId := contactId;
                  Verify.vector := normalise <$> Capture.vector lastResult;
                  Verify.requested := None |} in
   let s' := handleVoiceVerification (Some lastResult) contactId s db in
   s' = match verifyVoiceProfile data db with
        | inr result =>
            setVoiceVerification
              {| similarity := received (Verify.similarity result);
                 threshold := received (Verify.threshold result);
                 verified := Verify.verified result |} s
        | inl _ => setVoiceEnrollmentStatus "Failed to verify voice profile" s
        end
   ∧ (∀ result, verifyVoiceProfile data db = inr result →
        verificationPanel s'
        = if is_finite (Verify.similarity result) && is_finite (Verify.threshold result)
          then Card (if Verify.verified result then "voice matched" else "voice mismatch")
                    ("Similarity " +:+ toFixed 3 (normalise (Verify.similarity result))
                     +:+ " vs threshold "
                     +:+ toFixed 2 (normalise (Verify.threshold result)))
          else RenderError)
   ∧ (∀ thrown, verifyVoiceProfile data db = inl thrown →
        verificationPanel s' = verificationPanel s
        ∧ voiceEnrollmentStatus s' = Some "Failed to verify voice profile"%string))
  ∧ (Exists (λ x, is_finite x = false) (Capture.vector lastResult) →
     handleVoiceVerification (Some lastResult) contactId s db
     = setVoiceEnrollmentStatus
         (message (verificationRequest contactId lastResult)) s).
Proof.
  split.
  - intros Hfin data s'.
    assert (Hparse : Verify.schema infinities (verificationRequest contactId lastResult)
                     = Some data)
      by (by rewrite verification_schema, wire_finite).
    assert (Hs' : s' = match verifyVoiceProfile data db with
                       | inr result =>
                           setVoiceVerification
                             {| similarity := received (Verify.similarity result);
                                threshold := received (Verify.threshold result);
                                verified := Verify.verified result |} s
                       | inl _ =>
                           setVoiceEnrollmentStatus "Failed to verify voice profile" s
                       end).
    { subst s'. unfold Dashboard.handleVoiceVerification, Verify.POST. rewrite Hparse.
      by destruct (verifyVoiceProfile data db). }
    split; [exact Hs'|]. split.
    + intros result Hresult. rewrite Hs', Hresult.
      unfold Dashboard.verificationPanel, setVoiceVerification, received.
      cbn [voiceVerification similarity threshold verified].
      by destruct (is_finite (Verify.similarity result)),
                  (is_finite (Verify.threshold result)).
    + intros thrown Hthrown. by rewrite Hs', Hthrown.
  - intros Hbad.
    assert (Hparse : Verify.schema infinities (verificationRequest contactId lastResult)
                     = None)
      by (by rewrite verification_schema, wire_not_finite).
    unfold Dashboard.handleVoiceVerification, Verify.POST. by rewrite Hparse.
Qed.

End Verification.

End HandlerFacts.

Import Samples DashboardSamples.

Lemma enrollment_refuses_non_finite_witness :
  Exists (λ x, is_finite x = false) (Capture.vector poisoned)
  ∧ handleVoiceEnrollment false noMessage (Register.save 7) (Some poisoned) "c1" blank oneContact
    = (setVoiceEnrollmentStatus "invalid" blank, oneContact).
Proof.
  assert (Hbad : Exists (λ x, is_finite x = false) (Capture.vector poisoned))
    by (by apply Exists_cons_tl, Exists_cons_hd).
  split; [exact Hbad|].
  exact (proj2 (proj2 (enrollment_refuses_non_finite false noMessage (Register.save 7)
                         "c1" blank oneContact) poisoned Hbad)).
Defined.

Lemma enrollment_end_to_end_witness :
  Capture.lastResult finished = Some captured
  ∧ Forall (λ x, is_finite x = true) (Capture.vector captured)
  ∧ fst (handleVoiceEnrollment false noMessage (Register.save 7)
           (Some captured) "c1" blank oneContact)
    = setVoiceEnrollmentStatus "Voice profile enrolled successfully." blank
  ∧ handleVoiceEnrollment false noMessage (Register.save 7)
      (Some captured) "nobody" blank oneContact
    = (setVoiceEnrollmentStatus "Contact not found" blank, oneContact).
Proof.
  split; [reflexivity|].
  assert (Hfin : Forall (λ x, is_finite x = true) (Capture.vector captured))
    by (by repeat constructor).
  split; [exact Hfin|]. split.
  - rewrite (enrollment_end_to_end false noMessage (Register.save 7) captured "c1"
               blank oneContact Hfin).
    by rewrite bool_decide_eq_true_2 by (simpl; set_solver).
  - rewrite (enrollment_end_to_end false noMessage (Register.save 7) captured "nobody"
               blank oneContact Hfin).
    by rewrite bool_decide_eq_false_2 by (simpl; set_solver).
Defined.

Lemma verification_end_to_end_witness :
  Forall (λ x, is_finite x = true) (Capture.vector captured)
  ∧ handleVoiceVerification false noMessage Verify.verifyVoiceProfile
      (Some captured) "c1" blank oneContact
    = setVoiceEnrollmentStatus "Failed to verify voice profile" blank
  ∧ verificationPanel digits
      (handleVoiceVerification false noMessage matching (Some captured) "c1" blank oneContact)
    = Card "voice matched" "Similarity 3 vs threshold 2"
  ∧ verificationPanel digits
      (handleVoiceVerification false noMessage notANumber (Some captured) "c1" blank oneContact)
    = RenderError.
Proof.
  assert (Hfin : Forall (λ x, is_finite x = true) (Capture.vector captured))
    by (by repeat constructor).
  split; [exact Hfin|]. split; [|split].
  - by rewrite (proj1 (proj1 (verification_end_to_end false noMessage
                                Verify.verifyVoiceProfile digits
                                captured "c1" blank oneContact) Hfin)).
  - by rewrite (proj1 (proj2 (proj1 (verification_end_to_end false noMessage
                                       matching digits
                                       captured "c1" blank oneContact) Hfin))
                  _ eq_refl).
  - by rewrite (proj1 (proj2 (proj1 (verification_end_to_end false noMessage
                                       notANumber digits
                                       captured "c1" blank oneContact) Hfin))
                  _ eq_refl).
Defined.

End DashboardFacts.

(** * Properties of the tags of the contact form *)

Module TagsFacts.
Import Tags.

Lemma split_not_nil (s : list N) : split s ≠ [].
Proof.
  destruct s as [|c s]; [done|]. simpl.
  case_decide; [done|]. by destruct (split s).
Qed.

Lemma split_app (a b : list N) :
  split (a ++ comma :: b) = split a ++ split b.
Proof.
  induction a as [|c a IH]; simpl.
  - done.
  - case_decide; [by rewrite IH|].
    rewrite IH. pose proof (split_not_nil a) as Ha.
    by destruct (split a).
Qed.

Lemma split_no_comma (s : list N) : Forall (λ piece, comma ∉ piece) (split s).
Proof.
  induction s as [|c s IH]; simpl.
  - repeat constructor. set_solver.
  - case_decide as Hc.
    + constructor; [set_solver|done].
    + destruct (split s) as [|piece pieces].
      * repeat constructor. set_solver.
      * inversion IH as [|? ? Hpiece Hpieces]; subst.
        constructor; [|done]. set_solver.
Qed.

Lemma split_one (s : list N) : comma ∉ s → split s = [s].
Proof.
  induction s as [|c s IH]; intros Hs; [done|]. simpl.
  rewrite decide_False by set_solver. rewrite IH by set_solver. done.
Qed.

Lemma split_join (tags : list (list N)) :
  tags ≠ [] → Forall (λ tag, comma ∉ tag) tags → split (join tags) = tags.
Proof.
  induction tags as [|tag tags IH]; intros Hne Hall; [done|].
  inversion Hall as [|? ? Htag Htags]; subst.
  destruct tags as [|tag' tags].
  - simpl. by apply split_one.
  - change (join (tag :: tag' :: tags)) with (tag ++ comma :: join (tag' :: tags)).
    rewrite split_app, split_one by done. by rewrite IH.
Qed.

Lemma trimStart_suffix (s : list N) : ∃ k, s = k ++ trimStart s.
Proof.
  induction s as [|c s [k IH]]; [by exists []|]. simpl.
  destruct (isWhiteSpace c); [|by exists []].
  exists (c :: k). simpl. by rewrite <- IH.
Qed.

Lemma trimEnd_prefix (s : list N) : ∃ k, s = trimEnd s ++ k.
Proof.
  destruct (trimStart_suffix (reverse s)) as [k Hk]. exists (reverse k).
  unfold trimEnd. by rewrite <- reverse_app, <- Hk, reverse_involutive.
Qed.

Lemma trimStart_head (s : list N) (c : N) :
  head (trimStart s) = Some c → isWhiteSpace c = false.
Proof.
  induction s as [|d s IH]; [done|]. simpl.
  destruct (isWhiteSpace d) eqn:Hd; [done|]. simpl. by intros [= <-].
Qed.

Lemma trimStart_same (s : list N) :
  (∀ c, head s = Some c → isWhiteSpace c = false) → trimStart s = s.
Proof. destruct s as [|c s]; [done|]. intros H. simpl. by rewrite H. Qed.

Lemma trimEnd_same (s : list N) :
  (∀ c, last s = Some c → isWhiteSpace c = false) → trimEnd s = s.
Proof.
  intros H. unfold trimEnd. rewrite trimStart_same; [apply reverse_involutive|].
  intros c Hc. apply H. by rewrite <- head_reverse.
Qed.

Lemma trim_no_comma (s : list N) : comma ∉ s → comma ∉ trim s.
Proof.
  intros Hs. unfold trim.
  destruct (trimStart_suffix s) as [k Hk].
  destruct (trimEnd_prefix (trimStart s)) as [k' Hk'].
  rewrite Hk, Hk' in Hs. set_solver.
Qed.

Lemma trim_ends (s : list N) :
  (∀ c, head (trim s) = Some c → isWhiteSpace c = false)
  ∧ (∀ c, last (trim s) = Some c → isWhiteSpace c = false).
Proof.
  unfold trim. split; intros c Hc.
  - destruct (trimEnd_prefix (trimStart s)) as [k Hk].
    apply (trimStart_head s). rewrite Hk.
    destruct (trimEnd (trimStart s)); [done|]. done.
  - unfold trimEnd in Hc. rewrite last_reverse in Hc.
    by apply (trimStart_head (reverse (trimStart s))).
Qed.

Lemma trim_clean (tag : list N) : clean tag → trim tag = tag.
Proof.
  intros (_ & _ & Hhead & Hlast). unfold trim.
  rewrite trimStart_same by done. by apply trimEnd_same.
Qed.

Lemma filter_all (tags : list (list N)) :
  Forall (λ tag, tag ≠ []) tags → filter (λ tag, tag ≠ []) tags = tags.
Proof.
  induction 1 as [|tag tags Htag Htags IH]; [done|].
  by rewrite filter_cons_True, IH.
Qed.

Lemma tagsOf_filter (s : list N) :
  tagsOf (Some s) = filter (λ tag, tag ≠ []) (trim <$> split s).
Proof. by destruct s. Qed.

(** Whatever is typed into the tags field, every tag that is posted is
    clean: it is not empty, has no comma in it, and neither begins nor ends
    with white space. *)
Theorem tags_are_clean (text : option (list N)) :
  Forall clean (tagsOf text).
Proof.
  destruct text as [s|]; [|constructor].
  rewrite tagsOf_filter. apply Forall_forall. intros tag Htag.
  apply list_elem_of_filter in Htag as [Hne Htag].
  apply list_elem_of_fmap in Htag as (piece & -> & Hpiece).
  split; [done|]. split.
  - apply trim_no_comma.
    by apply (proj1 (Forall_forall _ _) (split_no_comma s)).
  - apply trim_ends.
Qed.

(** A comma separates: the tags of two texts written with a comma between
    them are the tags of the first followed by the tags of the second. *)
Theorem tags_of_two_texts (a b : list N) :
  tagsOf (Some (a ++ comma :: b)) = tagsOf (Some a) ++ tagsOf (Some b).
Proof. by rewrite !tagsOf_filter, split_app, fmap_app, filter_app. Qed.

(** Clean tags written with commas between them are read back as they
    are, in their order; so reading the tags again from what was read
    changes nothing. *)
Theorem tags_round_trip (tags : list (list N)) :
  Forall clean tags → tagsOf (Some (join tags)) = tags.
Proof.
  intros Hall. rewrite tagsOf_filter.
  destruct tags as [|tag tags]; [done|].
  rewrite split_join; [|done|by eapply Forall_impl; [exact Hall|]; intros ? (_ & ? & _)].
  assert (Htrim : trim <$> (tag :: tags) = tag :: tags).
  { rewrite <- (list_fmap_id (tag :: tags)) at 2.
    apply Forall_fmap_ext_1. eapply Forall_impl; [exact Hall|].
    intros t Ht. by apply trim_clean. }
  rewrite Htrim. apply filter_all.
  eapply Forall_impl; [exact Hall|]. by intros t (Hne & _).
Qed.

Example tags_of_typed :
  tagsOf (Some typed) = [[118; 105; 112]; [111; 110; 98; 111; 97; 114; 100; 105; 110; 103]; [120]]%N.
Proof. by vm_compute. Qed.

Lemma tags_round_trip_witness :
  Forall clean [[118; 105; 112]; [120]]%N
  ∧ tagsOf (Some [118; 105; 112; 44; 120]%N) = [[118; 105; 112]; [120]]%N.
Proof.
  assert (Hclean : Forall clean [[118; 105; 112]; [120]]%N).
  { repeat constructor; try done; try set_solver; by intros c [= <-]. }
  split; [exact Hclean|]. exact (tags_round_trip _ Hclean).
Defined.

End TagsFacts.

(** * Properties of the pages *)

Module PagesFacts.
Import Pages.

Section MappingFacts.

Variable JSON_parse : string → option Json.
Variable toISOString : Z → string.

Local Abbreviation parseJsonArray := (parseJsonArray JSON_parse).
Local Abbreviation parseTags := (parseTags JSON_parse).
Local Abbreviation parsedOrEmpty := (parsedOrEmpty JSON_parse).
Local Abbreviation homeCall := (homeCall JSON_parse toISOString).
Local Abbreviation homeContact := (homeContact JSON_parse toISOString).
Local Abbreviation listedCall := (listedCall JSON_parse toISOString).
Local Abbreviation listedContact := (listedContact JSON_parse toISOString).
Local Abbreviation metrics := (metrics JSON_parse).

Lemma parsedOrEmpty_parseJsonArray (value : option string) :
  parsedOrEmpty value = parseJsonArray value.
Proof. by destruct value as [[|c value]|]. Qed.

Lemma parseTags_parseJsonArray (raw : option string) :
  parseTags raw = parseJsonArray raw.
Proof. by destruct raw as [[|c raw]|]. Qed.

(** The list handlers and the home page agree: from the same rows,
    [GET /api/calls] and [GET /api/contacts] answer with exactly the
    records the home page renders first, so a refetch of unchanged rows
    changes nothing on the dashboard.  In particular the guarded
    [safeParseArray] of the handlers, [parseJsonArray] and [parseTags] read
    every stored value alike. *)
Theorem listed_as_rendered (calls : list Call.Row) (contacts : list Contact.Row) :
  listedCall <$> calls = homeCall <$> calls
  ∧ listedContact <$> contacts = homeContact <$> contacts.
Proof.
  split; apply list_fmap_ext; intros i row _.
  - unfold Pages.listedCall, Pages.homeCall.
    by rewrite !parsedOrEmpty_parseJsonArray.
  - unfold Pages.listedContact, Pages.homeContact.
    by rewrite parsedOrEmpty_parseJsonArray, <- parseTags_parseJsonArray.
Qed.

Lemma tasks_sum (calls : list Call.Row) (n : nat) :
  foldl (λ acc call, acc + length (parseJsonArray (Call.actions call))) n calls
  = n + sum_list (length ∘ DashboardCall.actions <$> (homeCall <$> calls)).
Proof.
  revert n. induction calls as [|call calls IH]; intros n.
  - simpl. lia.
  - rewrite !fmap_cons. cbn [foldl sum_list].
    rewrite IH. unfold compose at 2. cbn [DashboardCall.actions Pages.homeCall]. unfold id. lia.
Qed.

Lemma count_profiles (contacts : list Contact.Row) :
  length (filter (λ contact, is_Some (Contact.voiceProfile contact)) contacts)
  = length (filter (λ shown, is_Some (DashboardContact.voiceProfileId shown))
              (homeContact <$> contacts)).
Proof.
  induction contacts as [|contact contacts IH]; [done|].
  rewrite fmap_cons, !filter_cons.
  destruct (Contact.voiceProfile contact) as [profile|] eqn:Hp.
  - rewrite !decide_True; [simpl; by rewrite IH| |]; simpl; rewrite ?Hp; eauto.
  - rewrite !decide_False; [done| |]; simpl; rewrite ?Hp; by intros [? ?].
Qed.

(** The numbers of the header never contradict the lists below them: the
    voice-ready and the opted-in contacts are at most the contacts, the
    positive calls at most the calls; the voice-ready count is the number of
    rendered contacts that carry a voice profile id; and the pending tasks
    are the rendered actions of all calls together. *)
Theorem metrics_agree (contacts : list Contact.Row) (calls : list Call.Row) :
  let m := metrics contacts calls in
  DashboardMetrics.voiceProfiles m ≤ DashboardMetrics.totalContacts m
  ∧ DashboardMetrics.whatsappOptIns m ≤ DashboardMetrics.totalContacts m
  ∧ DashboardMetrics.positiveSentiment m ≤ DashboardMetrics.totalCalls m
  ∧ DashboardMetrics.totalContacts m = length (homeContact <$> contacts)
  ∧ DashboardMetrics.totalCalls m = length (homeCall <$> calls)
  ∧ DashboardMetrics.voiceProfiles m
    = length (filter (λ shown, is_Some (DashboardContact.voiceProfileId shown))
                (homeContact <$> contacts))
  ∧ DashboardMetrics.tasksPending m
    = sum_list (length ∘ DashboardCall.actions <$> (homeCall <$> calls)).
Proof.
  cbv zeta. unfold Pages.metrics. simpl.
  repeat split; try apply length_filter; try by rewrite length_fmap.
  - apply count_profiles.
  - by rewrite tasks_sum.
Qed.

End MappingFacts.

Import Sentiment.

Lemma sentiment_of_scored (data : list DashboardCall.t) :
  sentimentAverages (Some data)
  = sentimentAverages
      (Some (filter (λ call, is_Some (DashboardCall.sentimentScore call)) data)).
Proof.
  unfold sentimentAverages. simpl.
  by rewrite list_filter_filter_l.
Qed.

(** Calls without a score do not count: the average and its label are
    those of the scored calls alone, wherever the others stand in the list.
    With no scored call (or no data) the average is 0 and the label is
    "neutral" in lower case; with at least one the label is "Positive",
    "Negative" or "Neutral". *)
Theorem sentiment_ignores_unscored (data : list DashboardCall.t) :
  let scored := filter (λ call, is_Some (DashboardCall.sentimentScore call)) data in
  sentimentAverages (Some data) = sentimentAverages (Some scored)
  ∧ sentimentAverages None = (0%float, "neutral"%string)
  ∧ (scored = [] → sentimentAverages (Some data) = (0%float, "neutral"%string))
  ∧ (scored ≠ [] →
     snd (sentimentAverages (Some data))
     ∈ ["Positive"%string; "Negative"%string; "Neutral"%string]).
Proof.
  intros scored. split; [apply sentiment_of_scored|]. split; [done|].
  unfold sentimentAverages. simpl. fold scored. split.
  - by intros ->.
  - intros Hne. destruct scored as [|call rest]; [done|]. simpl.
    repeat case_match; set_solver.
Qed.

Import RowSamples.

Example sentiment_of_three :
  sentimentAverages
    (Some [scoredCall (Some 0.5%float); scoredCall None; scoredCall (Some 1%float)])
  = (0.75%float, "Positive"%string).
Proof. reflexivity. Qed.

Example sentiment_of_negative :
  sentimentAverages (Some [scoredCall None; scoredCall (Some (-0.5)%float)])
  = ((-0.5)%float, "Negative"%string).
Proof. reflexivity. Qed.

End PagesFacts.

(** * Properties of the Twilio webhooks *)

Module WebhooksFacts.
Import Webhooks.

Lemma startsWith_colon (pattern s : string) :
  startsWith pattern s = true → hasColon pattern = true → hasColon s = true.
Proof.
  revert s. induction pattern as [|a pattern IH]; intros s; [done|].
  destruct s as [|b s]; [done|]. simpl.
  case_decide as Hab; [subst b|done].
  case_decide; [done|]. apply IH.
Qed.

Lemma removeFirst_absent (pattern s : string) :
  hasColon pattern = true → hasColon s = false → removeFirst pattern s = s.
Proof.
  intros Hp. induction s as [|c s IH]; intros Hs.
  - by destruct pattern.
  - assert (Hstart : startsWith pattern (String c s) = false).
    { destruct (startsWith pattern (String c s)) eqn:Hstart; [|done].
      by rewrite (startsWith_colon _ _ Hstart Hp) in Hs. }
    cbn [removeFirst]. rewrite Hstart.
    simpl in Hs. case_decide; [done|]. by rewrite IH.
Qed.

Lemma removeFirst_step (pattern : string) (c : Ascii.ascii) (s : string) :
  startsWith pattern (String c s) = false →
  removeFirst pattern (String c s) = String c (removeFirst pattern s).
Proof. intros Hstart. cbn [removeFirst]. by rewrite Hstart. Qed.

Lemma append_cons (c : Ascii.ascii) (a b : string) :
  (String c a +:+ b)%string = String c (a +:+ b)%string.
Proof. reflexivity. Qed.

Lemma append_nil (b : string) : (EmptyString +:+ b)%string = b.
Proof. reflexivity. Qed.

Lemma callerPhone_plain (number : string) :
  hasColon number = false → callerPhone number = number.
Proof.
  intros Hn. unfold callerPhone.
  rewrite (removeFirst_absent "whatsapp:" number) by done.
  by rewrite (removeFirst_absent "tel:" number).
Qed.

Lemma callerPhone_whatsapp (number : string) :
  hasColon number = false → callerPhone ("whatsapp:" +:+ number) = number.
Proof.
  intros Hn. unfold callerPhone.
  change (removeFirst "whatsapp:" ("whatsapp:" +:+ number)) with number.
  by rewrite (removeFirst_absent "tel:" number).
Qed.

Lemma callerPhone_tel (number : string) :
  hasColon number = false → callerPhone ("tel:" +:+ number) = number.
Proof.
  intros Hn. unfold callerPhone.
  assert (Hkeep : removeFirst "whatsapp:" ("tel:" +:+ number) = "tel:" +:+ number).
  { rewrite !append_cons, append_nil, !removeFirst_step by done.
    by rewrite (removeFirst_absent "whatsapp:" number). }
  rewrite Hkeep. done.
Qed.

(** A caller id is looked up by its bare number: a number without a colon
    stays as it is, and from "whatsapp:" or "tel:" followed by the number (or
    both, in this order) exactly the number is left. *)
Theorem callerPhone_strips (number : string) :
  hasColon number = false →
  callerPhone number = number
  ∧ callerPhone ("whatsapp:" +:+ number) = number
  ∧ callerPhone ("tel:" +:+ number) = number
  ∧ callerPhone ("whatsapp:tel:" +:+ number) = number.
Proof.
  intros Hn. split; [by apply callerPhone_plain|].
  split; [by apply callerPhone_whatsapp|].
  split; [by apply callerPhone_tel|].
  unfold callerPhone.
  change (removeFirst "whatsapp:" ("whatsapp:tel:" +:+ number)) with ("tel:" +:+ number).
  done.
Qed.

Section HandlerFacts.

Context {Calls : Type}.
Variable createCallRecord : CallRecord → Calls → option Calls.
Variable upsertCallByTwilioSid : string → StatusUpdate → Calls → option Calls.

Local Abbreviation inbound := (inbound createCallRecord).
Local Abbreviation statusChanged := (statusChanged upsertCallByTwilioSid).

(** An inbound WhatsApp call from a number, to a number that is not empty:
    the call is recorded as INBOUND with the id of the contact whose phone
    is the bare number (none when there is no such contact) and with the
    caller id as Twilio sent it, and the caller is greeted by that contact's
    name.  When [createCallRecord] throws, the handler fails and nothing is
    answered. *)
Theorem inbound_finds_caller (form : gmap string string)
  (contacts : gmap string Contact.Row) (calls : Calls) (number to : string) :
  hasColon number = false →
  form !! "From"%string = Some ("whatsapp:" +:+ number)%string →
  form !! "To"%string = Some to →
  to ≠ EmptyString →
  inbound form contacts calls
  = match createCallRecord
            {| contactId := Contact.rowId <$> contacts !! number;
               Webhooks.to := to;
               subject := "Inbound call";
               direction := "INBOUND";
               recordingUrl := form !! "RecordingUrl"%string;
               inboundFrom := ("whatsapp:" +:+ number)%string;
               twilioSid := form !! "CallSid"%string |} calls with
    | None => (Rejected, calls)
    | Some calls' =>
        (Resolved {| code := 200; text := twiml (contacts !! number) |}, calls')
    end.
Proof.
  intros Hn Hfrom Hto Hne. unfold Webhooks.inbound.
  rewrite Hfrom, Hto.
  assert (Hthere : missing (Some ("whatsapp:" +:+ number)%string) = false) by done.
  rewrite Hthere. destruct to as [|c to]; [done|].
  cbn [missing orb default]. unfold id. by rewrite callerPhone_whatsapp.
Qed.

(** Both webhooks refuse an incomplete form before anything is written:
    without a From or a To (absent or empty) the inbound webhook answers
    400 and [createCallRecord] is not called; without a CallSid the status
    webhook answers 400 and [upsertCallByTwilioSid] is not called. *)
Theorem webhooks_refuse_incomplete (form : gmap string string)
  (contacts : gmap string Contact.Row) (calls : Calls) :
  (missing (form !! "From"%string) || missing (form !! "To"%string) = true →
   inbound form contacts calls
   = (Resolved {| code := 400;
                  text := "<Response><Say>Invalid call payload.</Say></Response>" |},
      calls))
  ∧ (missing (form !! "CallSid"%string) = true →
     statusChanged form calls
     = (Resolved {| status := 400; body := Error "Missing CallSid" |}, calls)).
Proof.
  split; intros Hmissing.
  - unfold Webhooks.inbound. by rewrite Hmissing.
  - unfold Webhooks.statusChanged. by rewrite Hmissing.
Qed.

End HandlerFacts.

Import RowSamples.

Example callerPhone_first_only :
  callerPhone "tel:tel:+1555" = "tel:+1555"%string.
Proof. reflexivity. Qed.

Lemma callerPhone_strips_witness :
  hasColon "+15551234567" = false
  ∧ callerPhone "whatsapp:+15551234567" = "+15551234567"%string.
Proof.
  split; [done|].
  exact (proj1 (proj2 (callerPhone_strips "+15551234567" eq_refl))).
Defined.

Lemma inbound_finds_caller_witness :
  hasColon "+15551234567" = false
  ∧ ringing !! "From"%string = Some "whatsapp:+15551234567"%string
  ∧ ringing !! "To"%string = Some "+15550000000"%string
  ∧ fst (inbound record ringing byPhone [])
    = Resolved {| code := 200; text := twiml (Some avery) |}.
Proof.
  assert (Hfrom : ringing !! "From"%string = Some "whatsapp:+15551234567"%string)
    by (by vm_compute).
  assert (Hto : ringing !! "To"%string = Some "+15550000000"%string)
    by (by vm_compute).
  split; [done|]. split; [exact Hfrom|]. split; [exact Hto|].
  rewrite (inbound_finds_caller record ringing byPhone [] "+15551234567"
             "+15550000000" eq_refl Hfrom Hto); [|done].
  by vm_compute.
Defined.

End WebhooksFacts.

(** * Properties of the handlers of one call *)

Module CallRoutesFacts.
Import CallRoutes.

Lemma blank_false (value : option string) :
  blank value = false → ∃ s, value = Some s ∧ s ≠ EmptyString.
Proof. destruct value as [[|c s]|]; try done. eauto. Qed.

Lemma schema_Some (request : Json) (text : string) :
  schema request = Some text →
  member "body" request = Some (JString text) ∧ text ≠ EmptyString.
Proof.
  unfold schema, nonEmptyString, z.string.
  destruct request; try done.
  destruct (member _ _) as [[]|]; try done.
  destruct s as [|c s]; [done|]. by intros [= <-].
Qed.

Section HandlerFacts.

Context {Store Insights : Type}.
Variable message : Json → string.
Variable requestTranscriptionFromRecording : string → option Transcription.
Variable upsertTranscript : TranscriptInput → Store → option unit * Store.
Variable generateCallInsights : InsightsInput → option Insights.
Variable persistInsights : string → Insights → Store → option unit * Store.
Variable sendWhatsappMessage : WhatsappInput → Store → option string * Store.

Local Abbreviation transcribe :=
  (transcribe requestTranscriptionFromRecording upsertTranscript).
Local Abbreviation insights := (insights generateCallInsights persistInsights).
Local Abbreviation whatsapp := (whatsapp message sendWhatsappMessage).

(** A WhatsApp follow-up is answered with 200 only when it was sent: the
    call exists, its contact has a phone that is not empty, the request has a
    [body] string that is not empty, and [sendWhatsappMessage] returned for
    exactly that phone, that body and the id of the call; the answer carries
    the sid it returned. *)
Theorem whatsapp_sent_only_when (id : string) (request : Json)
  (calls : gmap string Call.Row) (store : Store) :
  status (fst (whatsapp id request calls store)) = 200 →
  ∃ call contact text sid store',
    calls !! id = Some call
    ∧ Call.contact call = Some contact
    ∧ Contact.phone contact ≠ EmptyString
    ∧ member "body" request = Some (JString text)
    ∧ text ≠ EmptyString
    ∧ sendWhatsappMessage
        {| to := Contact.phone contact; messageBody := text;
           messageCallId := Call.id call |} store = (Some sid, store')
    ∧ whatsapp id request calls store
      = ({| status := 200; body := Payload sid |}, store').
Proof.
  unfold CallRoutes.whatsapp.
  destruct (calls !! id) as [call|]; [|done].
  destruct (blank (contactPhone call)) eqn:Hphone; [done|].
  apply blank_false in Hphone as (phone & Hphone & Hne).
  unfold contactPhone in Hphone.
  destruct (Call.contact call) as [contact|] eqn:Hcontact; [|done].
  injection Hphone as Hphone.
  destruct (schema request) as [text|] eqn:Hparse; [|done].
  apply schema_Some in Hparse as [Hbody Htext].
  unfold contactPhone. rewrite Hcontact. simpl.
  destruct (sendWhatsappMessage _ store) as [[sid|] store'] eqn:Hsend; [|done].
  intros _. exists call, contact, text, sid, store'. by subst phone.
Qed.

(** A transcription is answered with 200 only when the call exists and has
    a recording URL that is not empty, the transcription service answered
    for that URL, and the transcript was stored for the call; what is
    stored as the redacted text is the text itself, and a transcription
    without text is stored as the empty string. *)
Theorem transcribe_only_recorded (id : string) (calls : gmap string Call.Row)
  (store : Store) :
  status (fst (transcribe id calls store)) = 200 →
  ∃ call url transcription store',
    calls !! id = Some call
    ∧ Call.recordingUrl call = Some url
    ∧ url ≠ EmptyString
    ∧ requestTranscriptionFromRecording url = Some transcription
    ∧ upsertTranscript (transcriptOf call transcription) store = (Some (), store')
    ∧ redacted (transcriptOf call transcription)
      = transcriptText (transcriptOf call transcription)
    ∧ transcriptText (transcriptOf call transcription)
      = default EmptyString (text transcription)
    ∧ transcribe id calls store
      = ({| status := 200; body := Payload transcription |}, store').
Proof.
  unfold CallRoutes.transcribe.
  destruct (calls !! id) as [call|]; [|done].
  destruct (blank (Call.recordingUrl call)) eqn:Hurl; [done|].
  apply blank_false in Hurl as (url & Hurl & Hne). rewrite Hurl. simpl.
  destruct (requestTranscriptionFromRecording url) as [transcription|] eqn:Hreq;
    [|done].
  destruct (upsertTranscript _ store) as [[[]|] store'] eqn:Hup; [|done].
  intros _. by exists call, url, transcription, store'.
Qed.

(** Insights are answered with 200 only when the call exists and has a
    transcript whose text is not empty, [generateCallInsights] returned for
    that text (with the name of the call's contact and the subject of the
    call), and the insights were persisted under the id of the call. *)
Theorem insights_need_transcript (id : string) (calls : gmap string Call.Row)
  (store : Store) :
  status (fst (insights id calls store)) = 200 →
  ∃ call spoken found store',
    calls !! id = Some call
    ∧ Call.transcript call = Some (Some spoken)
    ∧ spoken ≠ EmptyString
    ∧ generateCallInsights
        {| transcript := spoken;
           contactName := Contact.name <$> Call.contact call;
           conversationContext := Call.subject call |} = Some found
    ∧ persistInsights (Call.id call) found store = (Some (), store')
    ∧ insights id calls store = ({| status := 200; body := Payload found |}, store').
Proof.
  unfold CallRoutes.insights.
  destruct (calls !! id) as [call|]; [|done].
  destruct (blank (spokenText call)) eqn:Htext; [done|].
  apply blank_false in Htext as (spoken & Htext & Hne). rewrite Htext. simpl.
  destruct (generateCallInsights _) as [found|] eqn:Hgen; [|done].
  destruct (persistInsights _ found store) as [[[]|] store'] eqn:Hper; [|done].
  intros _. exists call, spoken, found, store'.
  repeat split; try done.
  unfold spokenText in Htext. by destruct (Call.transcript call) as [[?|]|]; simplify_eq/=.
Qed.

(** Nothing is written for a call that is not there, for a call without
    what the handler needs, or for a request the schema refuses: whenever
    one of the three handlers answers 404 or 400, the store is what it
    was. *)
Theorem refusals_write_nothing (id : string) (request : Json)
  (calls : gmap string Call.Row) (store : Store) :
  (status (fst (transcribe id calls store)) ∈ [404; 400] →
   snd (transcribe id calls store) = store)
  ∧ (status (fst (insights id calls store)) ∈ [404; 400] →
     snd (insights id calls store) = store)
  ∧ (status (fst (whatsapp id request calls store)) ∈ [404; 400] →
     snd (whatsapp id request calls store) = store).
Proof.
  unfold CallRoutes.transcribe, CallRoutes.insights, CallRoutes.whatsapp.
  repeat split; intros Hstatus;
    repeat (case_match; simplify_eq/=; try done); set_solver.
Qed.

End HandlerFacts.

Import Samples RowSamples.

Lemma whatsapp_sent_only_when_witness :
  status (fst (whatsapp noMessage send "k1" followUp callTable [])) = 200
  ∧ ∃ sid, whatsapp noMessage send "k1" followUp callTable []
           = ({| status := 200; body := Payload sid |}, []).
Proof.
  assert (Hok : status (fst (whatsapp noMessage send "k1" followUp callTable [])) = 200)
    by (by vm_compute).
  split; [exact Hok|].
  destruct (whatsapp_sent_only_when noMessage send "k1" followUp callTable [] Hok)
    as (call & contact & text & sid & store' & _ & _ & _ & _ & _ & Hsend & Heq).
  exists sid. rewrite Heq. by injection Hsend as _ <-.
Defined.

Lemma transcribe_only_recorded_witness :
  status (fst (transcribe heard keep "k1" callTable [])) = 200
  ∧ ∃ call transcription,
      snd (transcribe heard keep "k1" callTable [])
      = [transcriptOf call transcription]
      ∧ redacted (transcriptOf call transcription) = EmptyString.
Proof.
  assert (Hok : status (fst (transcribe heard keep "k1" callTable [])) = 200)
    by (by vm_compute).
  split; [exact Hok|].
  destruct (transcribe_only_recorded heard keep "k1" callTable [] Hok)
    as (call & url & transcription & store' & _ & _ & _ & Hreq & Hup & Hred & Htext & Heq).
  exists call, transcription. rewrite Heq.
  injection Hup as <-. split; [reflexivity|].
  rewrite Hred, Htext. by injection Hreq as <-.
Defined.

Lemma insights_need_transcript_witness :
  status (fst (insights think persist "k1" callTable [])) = 200
  ∧ insights think persist "k1" callTable []
    = ({| status := 200; body := Payload "hello"%string |}, []).
Proof.
  assert (Hok : status (fst (insights think persist "k1" callTable [])) = 200)
    by (by vm_compute).
  split; [exact Hok|].
  destruct (insights_need_transcript think persist "k1" callTable [] Hok)
    as (call & spoken & found & store' & _ & _ & _ & _ & _ & Heq).
  rewrite Heq. by vm_compute in Heq |- *.
Defined.

End CallRoutesFacts.
